(** * Verification of the Heisenberg Trotter circuit builder and of the VQE
      retry / optimisation harness

    Sources embedded here:
    - [src/mymodule_heisenberg.py]   ([trotter_twopi_heisenberg])
    - [src/qc_workbook/runtime_vqe.py] ([energy_expval], [main])

    Python floats are kept behind the interface [PyFloat]: every development
    below is parametric in the float operations the source uses, and the
    IEEE binary64 instance [prim_float] is used to run the definitions on
    concrete inputs. *)

From Stdlib Require Import ZArith Lia.
From Stdlib Require Import Floats.PrimFloat Floats.SpecFloat Floats.FloatOps.
From stdpp Require Import base option list strings gmap pretty.

Open Scope Z_scope.

(** ** Python floats *)

Class PyFloat (F : Type) : Type := {
  f_zero : F;                 (* the literal 0.   *)
  f_two : F;                  (* the literal 2.   *)
  f_centi : F;                (* the literal 0.01 *)
  f_pi : F;                   (* np.pi            *)
  f_neg : F -> F;             (* unary minus      *)
  f_mul : F -> F -> F;        (* x * y            *)
  f_div : F -> F -> F;        (* x / y for a divisor that is not zero *)
  f_eqb : F -> F -> bool;     (* x == y           *)
  f_of_int : Z -> option F    (* int -> float; None when the int is too large *)
}.

(** IEEE binary64, as CPython has it. *)
Definition prim_of_int (z : Z) : option float :=
  let x := SF2Prim (binary_normalize prec emax z 0 false) in
  if PrimFloat.is_infinity x then None else Some x.

#[export] Instance prim_float : PyFloat float := {|
  f_zero := 0%float;
  f_two := 2%float;
  f_centi := 0x1.47ae147ae147bp-7%float;
  f_pi := 0x1.921fb54442d18p+1%float;
  f_neg := PrimFloat.opp;
  f_mul := PrimFloat.mul;
  f_div := PrimFloat.div;
  f_eqb := PrimFloat.eqb;
  f_of_int := prim_of_int
|}.

(** ** Exceptions and results *)

Inductive exn : Type :=
| ZeroDivisionError
| OverflowError
| CircuitError (msg : string)
| JobError
| OtherError (msg : string).

#[export] Instance exn_eq_dec : EqDecision exn.
Proof. solve_decision. Defined.

Inductive result (A : Type) : Type :=
| Ok (a : A)
| Raise (e : exn).
Arguments Ok {A} a.
Arguments Raise {A} e.

(** [x / n] for a float [x] and an int [n]: the int is converted first, then
    a zero divisor raises. *)
Definition truediv {F : Type} {PF : PyFloat F} (x : F) (n : Z) : result F :=
  match f_of_int n with
  | None => Raise OverflowError
  | Some d => if f_eqb d f_zero then Raise ZeroDivisionError else Ok (f_div x d)
  end.

Module Heisenberg.

Section Circuit.
Context {F : Type} {PF : PyFloat F}.

(** *** The part of the circuit library the source calls *)

#[warnings="-register-all"]
Inductive instruction : Type :=
| CX (ctl tgt : nat)
| RZ (theta : F) (q : nat)
| H (q : nat)
| P (lam : F) (q : nat)
| CircuitGate (gname : string) (definition : list instruction) (qargs : list nat).

Record circuit : Type := mkCircuit {
  name : string;
  num_qubits : nat;
  data : list instruction
}.

(** Construction of a circuit on a register. *)
Definition QuantumCircuit (size : nat) (nm : string) : circuit :=
  mkCircuit nm size [].

(** Circuit-building commands: the circuit is mutated in place, and a command
    may raise. *)
Definition build (A : Type) : Type := circuit -> result (A * circuit).

#[export] Instance build_ret : MRet build := fun A a c => Ok (a, c).
#[export] Instance build_bind : MBind build := fun A B k m c =>
  match m c with
  | Ok (a, c') => k a c'
  | Raise e => Raise e
  end.

Definition has_dups (qs : list nat) : bool :=
  negb (bool_decide (NoDup qs)).

(** [QuantumCircuit.append]: qubit indices must be in range and pairwise
    distinct; the instruction goes to the end of [data]. *)
Definition append (i : instruction) (qargs : list nat) : build unit :=
  fun c =>
    if negb (forallb (fun q => Nat.ltb q (num_qubits c)) qargs)
    then Raise (CircuitError "Index out of range.")
    else if has_dups qargs
    then Raise (CircuitError "duplicate qubit arguments")
    else Ok (tt, mkCircuit (name c) (num_qubits c) (data c ++ [i])).

Definition cx (ctl tgt : nat) : build unit := append (CX ctl tgt) [ctl; tgt].
Definition rz (theta : F) (q : nat) : build unit := append (RZ theta q) [q].
Definition h (q : nat) : build unit := append (H q) [q].
Definition p (lam : F) (q : nat) : build unit := append (P lam q) [q].

(** [for x in xs: body x] *)
Fixpoint for_each {A} (xs : list A) (body : A -> build unit) : build unit :=
  match xs with
  | [] => mret tt
  | x :: rest => body x ;; for_each rest body
  end.

(** [circuit.to_gate()] and [circuit.repeat(reps)]. *)
Definition to_gate (c : circuit) : instruction :=
  CircuitGate (name c) (data c) (seq 0 (num_qubits c)).

Definition _append (i : instruction) (c : circuit) : circuit :=
  mkCircuit (name c) (num_qubits c) (data c ++ [i]).

Definition repeat (reps : Z) (c : circuit) : circuit :=
  let repeated_circ :=
    QuantumCircuit (num_qubits c) (name c +:+ "**" +:+ pretty reps) in
  if 0 <? reps
  then fold_left (fun rc _ => _append (to_gate c) rc)
                 (seq 0 (Z.to_nat reps)) repeated_circ
  else repeated_circ.

Definition set_name (nm : string) (c : circuit) : circuit :=
  mkCircuit nm (num_qubits c) (data c).

(** *** [trotter_twopi_heisenberg] *)

(** The body of [for j in range(n_spins)], lines 44-76. *)
Definition spin_body (n_spins : nat) (g phase : F) (j : nat) : build unit :=
  (* ZZ *)
  cx j ((j + 1) mod n_spins) ;;
  rz (f_mul (f_neg f_two) phase) ((j + 1) mod n_spins) ;;
  cx j ((j + 1) mod n_spins) ;;
  (* XX *)
  h j ;;
  h ((j + 1) mod n_spins) ;;
  cx j ((j + 1) mod n_spins) ;;
  rz (f_mul (f_neg f_two) phase) ((j + 1) mod n_spins) ;;
  cx j ((j + 1) mod n_spins) ;;
  h j ;;
  h ((j + 1) mod n_spins) ;;
  (* YY *)
  p (f_div (f_neg f_pi) f_two) j ;;
  p (f_div (f_neg f_pi) f_two) ((j + 1) mod n_spins) ;;
  h j ;;
  h ((j + 1) mod n_spins) ;;
  cx j ((j + 1) mod n_spins) ;;
  rz (f_mul (f_neg f_two) phase) ((j + 1) mod n_spins) ;;
  cx j ((j + 1) mod n_spins) ;;
  h j ;;
  h ((j + 1) mod n_spins) ;;
  p (f_div f_pi f_two) j ;;
  p (f_div f_pi f_two) ((j + 1) mod n_spins) ;;
  (* gZ *)
  if negb (f_eqb g f_zero)
  then rz (f_mul (f_mul (f_neg f_two) g) phase) j
  else mret tt.

(** Lines 29-76: the circuit of one Trotter step. *)
Definition single_step (n_spins : nat) (energy_norm g : F) (num_steps : Z)
  : result circuit :=
  let circuit0 := QuantumCircuit n_spins "ΔU" in
  match truediv (f_mul f_two f_pi) num_steps with
  | Raise e => Raise e
  | Ok step_size =>
      let phase := f_mul (f_neg energy_norm) step_size in
      match for_each (seq 0 n_spins) (spin_body n_spins g phase) circuit0 with
      | Raise e => Raise e
      | Ok (_, c) => Ok c
      end
  end.

(** The whole function; [state_register] is given by its size. *)
Definition trotter_twopi_heisenberg
  (state_register : nat) (energy_norm g : F) (num_steps : Z) : result circuit :=
  match single_step state_register energy_norm g num_steps with
  | Raise e => Raise e
  | Ok c => Ok (set_name "U" (repeat num_steps c))
  end.

(** *** The gate sequence in the words of the specification *)

Definition ZZ_block (theta : F) (j k : nat) : list instruction :=
  [CX j k; RZ theta k; CX j k].

Definition XX_block (theta : F) (j k : nat) : list instruction :=
  [H j; H k; CX j k; RZ theta k; CX j k; H j; H k].

Definition YY_block (theta : F) (j k : nat) : list instruction :=
  [P (f_div (f_neg f_pi) f_two) j; P (f_div (f_neg f_pi) f_two) k;
   H j; H k; CX j k; RZ theta k; CX j k; H j; H k;
   P (f_div f_pi f_two) j; P (f_div f_pi f_two) k].

Definition field_block (g phase : F) (j : nat) : list instruction :=
  if f_eqb g f_zero then [] else [RZ (f_mul (f_mul (f_neg f_two) g) phase) j].

(** What is emitted for the pair [(j, (j+1) mod n)]. *)
Definition pair_gates (n : nat) (g phase : F) (j : nat) : list instruction :=
  let k := ((j + 1) mod n)%nat in
  let theta := f_mul (f_neg f_two) phase in
  ZZ_block theta j k ++ XX_block theta j k ++ YY_block theta j k
    ++ field_block g phase j.

Definition step_gates (n : nat) (g phase : F) : list instruction :=
  flat_map (pair_gates n g phase) (seq 0 n).

(** [phase = -energy_norm * (2*pi / num_steps)], for the converted divisor. *)
Definition phase_of (energy_norm d : F) : F :=
  f_mul (f_neg energy_norm) (f_div (f_mul f_two f_pi) d).

(** The gates a circuit stands for: a circuit-gate stands for its definition,
    placed on the qubits it is applied to. *)
Definition place (qargs : list nat) (q : nat) : nat := nth q qargs q.

Definition relabel (qargs : list nat) (i : instruction) : instruction :=
  match i with
  | CX c t => CX (place qargs c) (place qargs t)
  | RZ theta q => RZ theta (place qargs q)
  | H q => H (place qargs q)
  | P lam q => P lam (place qargs q)
  | CircuitGate nm def qs => CircuitGate nm def (map (place qargs) qs)
  end.

Definition expand (i : instruction) : list instruction :=
  match i with
  | CircuitGate _ def qargs => map (relabel qargs) def
  | _ => [i]
  end.

Definition gate_sequence (c : circuit) : list instruction :=
  flat_map expand (data c).

(** An instruction that is not itself a circuit-gate. *)
Definition simple (i : instruction) : Prop :=
  match i with CircuitGate _ _ _ => False | _ => True end.

End Circuit.

Arguments instruction F : clear implicits.
Arguments circuit F : clear implicits.

End Heisenberg.

Module RuntimeVQE.

Definition NUM_RETRIES : Z := 5.

(** [range(n)] *)
Definition range (n : Z) : list Z := map Z.of_nat (seq 0 (Z.to_nat n)).

Section Runtime.
Context {F : Type} {PF : PyFloat F}.
(** Everything outside the program: the backend, its queue, its noise. *)
Context {World : Type}.
(** The library objects that are only passed around. *)
Context {QuantumCircuit PauliSumOp Backend : Type}.
Context (num_parameters : QuantumCircuit -> nat).

(** *** Editable regions

    The source leaves the code between EDIT BELOW and EDIT ABOVE open.  A
    region starts from the current value of the local [energy]; it may act on
    the world, assign [energy], and raise.  It is left with the value of
    [energy] and, when it raises, the exception. *)
Definition region : Type := F -> World -> World * (F * option exn).

(** A region that holds comments only, inside a suite that has statements
    of its own: it does nothing.  This is the region of [objective_function]
    as supplied (lines 98-106, between [energy = 0.] and [num_calls += 1]). *)
Definition supplied : region := fun energy w => (w, (energy, None)).

(** The statement [pass]. *)
Definition pass : region := fun energy w => (w, (energy, None)).

(** *** [energy_expval] *)

(** [for itry in range(NUM_RETRIES)], lines 33-52.  [energy] is the local
    variable, unbound before the first iteration. *)
Fixpoint retry_loop (body : region) (itrys : list Z) (energy : option F)
    (w : World) : World * result F :=
  match itrys with
  | [] =>
      (* line 54 *)
      match energy with
      | Some e => (w, Ok e)
      | None => (w, Raise (OtherError "UnboundLocalError"))
      end
  | itry :: rest =>
      match body f_zero w with
      | (w', (e, Some JobError)) =>
          if itry =? NUM_RETRIES - 1
          then (w', Raise JobError)
          else retry_loop body rest (Some e) w'
      | (w', (_, Some ex)) => (w', Raise ex)
      | (w', (e, None)) => (w', Ok e)
      end
  end.

Definition energy_expval (body : QuantumCircuit -> PauliSumOp -> Backend -> Z -> region)
    (circuit : QuantumCircuit) (hamiltonian_op : PauliSumOp)
    (backend : Backend) (shots : Z) (w : World) : World * result F :=
  retry_loop (body circuit hamiltonian_op backend shots)
             (range NUM_RETRIES) None w.

(** *** [main] *)

Inductive value : Type :=
| VParams (x : list F)
| VFloat (e : F)
| VInt (n : Z).

(** What [main] and its closure act on: the world, the counter [num_calls]
    and what [user_messenger.publish] has been given so far. *)
Record state : Type := mkState {
  world : World;
  num_calls : Z;
  published : list (gmap string value)
}.

(** Lines 93-112. *)
Definition objective_function (body : list F -> region) (report_every : Z)
    (param_values : list F) (st : state) : state * result F :=
  match body param_values f_zero (world st) with
  | (w', (_, Some ex)) => (mkState w' (num_calls st) (published st), Raise ex)
  | (w', (energy, None)) =>
      let num_calls' := num_calls st + 1 in
      if (0 <? report_every) && (num_calls' `mod` report_every =? 0)
      then (mkState w' num_calls'
              (published st ++
                 [ {[ "params" := VParams param_values;
                      "energy" := VFloat energy;
                      "num_calls" := VInt num_calls' ]} ]),
            Ok energy)
      else (mkState w' num_calls' (published st), Ok energy)
  end.

(** The optimizer is a library: it is given by what it asks of the objective
    function.  It either stops with its final parameter values or evaluates
    the objective at a point and goes on from the value it gets. *)
Inductive strategy : Type :=
| Stop (x : list F)
| Evaluate (x : list F) (next : F -> strategy).

Record COBYLA : Type := mkCOBYLA {
  maxiter : Z;
  tol : option F
}.

Context (cobyla : COBYLA -> list F -> strategy).

Fixpoint drive (s : strategy) (fn : list F -> state -> state * result F)
    (st : state) : state * result (list F) :=
  match s with
  | Stop x => (st, Ok x)
  | Evaluate x next =>
      match fn x st with
      | (st', Ok e) => drive (next e) fn st'
      | (st', Raise ex) => (st', Raise ex)
      end
  end.

(** [optimizer.minimize(fun, x0)], returning [ret.x]. *)
Definition minimize (optimizer : COBYLA)
    (fn : list F -> state -> state * result F) (x0 : list F)
    (st : state) : state * result (list F) :=
  drive (cobyla optimizer x0) fn st.

(** [np.full(n, v)] *)
Definition np_full (n : nat) (v : F) : list F := replicate n v.

(** Lines 118-119: [if initial is None: initial = np.full(n, 0.01)]. *)
Definition default_initial (ansatz : QuantumCircuit)
    (initial : option (list F)) : list F :=
  match initial with
  | None => np_full (num_parameters ansatz) f_centi
  | Some x => x
  end.

Definition main (body : Backend -> QuantumCircuit -> PauliSumOp -> Z -> list F -> region)
    (backend : Backend) (ansatz : QuantumCircuit) (hamiltonian_op : PauliSumOp)
    (initial : option (list F)) (shots maxiter : Z) (tol : option F)
    (report_every : Z) (w : World)
  : state * result (gmap string value) :=
  let st0 := mkState w 0 [] in
  let objective :=
    objective_function (body backend ansatz hamiltonian_op shots) report_every in
  let optimizer := mkCOBYLA maxiter tol in
  let initial := default_initial ansatz initial in
  match minimize optimizer objective initial st0 with
  | (st1, Raise ex) => (st1, Raise ex)
  | (st1, Ok ret_x) =>
      match objective ret_x st1 with
      | (st2, Raise ex) => (st2, Raise ex)
      | (st2, Ok min_energy) =>
          (st2, Ok {[ "params" := VParams ret_x;
                      "energy" := VFloat min_energy;
                      "num_calls" := VInt (num_calls st2) ]})
      end
  end.

(** *** Ghost quantities used to state the properties *)

(** The world after [k] attempts of a region, and the way attempt [k]
    (counted from 0) is left. *)
Fixpoint world_at (body : region) (k : nat) (w : World) : World :=
  match k with
  | O => w
  | S k' => fst (body f_zero (world_at body k' w))
  end.

Definition attempt (body : region) (w : World) (k : nat) : F * option exn :=
  snd (body f_zero (world_at body k w)).

(** How many times the optimizer evaluates the objective. *)
Fixpoint evaluations (s : strategy) (fn : list F -> state -> state * result F)
    (st : state) : nat :=
  match s with
  | Stop _ => 0
  | Evaluate x next =>
      match fn x st with
      | (st', Ok e) => S (evaluations (next e) fn st')
      | (_, Raise _) => 1
      end
  end.

(** The values the optimizer gets back, in order. *)
Fixpoint observed (s : strategy) (fn : list F -> state -> state * result F)
    (st : state) : list F :=
  match s with
  | Stop _ => []
  | Evaluate x next =>
      match fn x st with
      | (st', Ok e) => e :: observed (next e) fn st'
      | (_, Raise _) => []
      end
  end.

(** *** Loading the module *)

(** What stands in an editable region of the file: the comments it is
    supplied with, or the code pasted into it. *)
Inductive edit (R : Type) : Type :=
| CommentsOnly
| Pasted (code : R).

(** The functions the module gives once it is loaded. *)
Record loaded : Type := mkLoaded {
  m_energy_expval :
    QuantumCircuit -> PauliSumOp -> Backend -> Z -> World -> World * result F;
  m_main :
    Backend -> QuantumCircuit -> PauliSumOp -> option (list F) -> Z -> Z ->
    option F -> Z -> World -> state * result (gmap string value)
}.

(** Python compiles the whole file before it runs any of it, and refuses a
    suite that holds no statement.  The region of [energy_expval] is all there
    is in the suite of its [try] (lines 36-46): with comments only the file is
    refused and no function of it exists.  The region of
    [objective_function] stands among the statements of the function body,
    where comments alone are accepted. *)
Definition load
    (expval_edit : edit (QuantumCircuit -> PauliSumOp -> Backend -> Z -> region))
    (objective_edit :
       edit (Backend -> QuantumCircuit -> PauliSumOp -> Z -> list F -> region))
  : result loaded :=
  match expval_edit with
  | CommentsOnly _ =>
      Raise (OtherError
        "IndentationError: expected an indented block after 'try' statement")
  | Pasted _ expval_code =>
      let objective_code :=
        match objective_edit with
        | CommentsOnly _ => fun _ _ _ _ _ => supplied
        | Pasted _ code => code
        end in
      Ok (mkLoaded (energy_expval expval_code) (main objective_code))
  end.

(** A region that cannot raise. *)
Definition completes (body : region) : Prop :=
  forall e w, snd (snd (body e w)) = None.

(** [report_every > 0 and num_calls % report_every == 0] *)
Definition reports (report_every num_calls : Z) : bool :=
  (0 <? report_every) && (num_calls `mod` report_every =? 0).

End Runtime.

Arguments region F World : clear implicits.
Arguments strategy F : clear implicits.
Arguments COBYLA F : clear implicits.
Arguments value F : clear implicits.
Arguments state F World : clear implicits.
Arguments CommentsOnly {R}.
Arguments Pasted {R} code.
Arguments loaded F World QuantumCircuit PauliSumOp Backend : clear implicits.

(** A region run next to a counter of how often it has been entered. *)
Definition counting {F World : Type} (body : region F World)
  : region F (World * nat) :=
  fun e wk =>
    let '(w', o) := body e (fst wk) in ((w', S (snd wk)), o).

End RuntimeVQE.

(** * [main] with a messenger that may fail *)

Module Messenger.
Import RuntimeVQE.

Section Messenger.
Context {F : Type} {PF : PyFloat F} {World : Type}.
Context {QuantumCircuit PauliSumOp Backend : Type}.
Context (num_parameters : QuantumCircuit -> nat).
Context (cobyla : COBYLA F -> list F -> strategy F).
(** [user_messenger.publish]: given a message it may act on the world and
    may raise. *)
Context (publish : gmap string (value F) -> World -> World * option exn).

(** Lines 93-112, with the call of [publish] spelled out; [published] logs
    what [publish] has been given. *)
Definition objective_function_via (body : list F -> region F World)
    (report_every : Z) (param_values : list F) (st : state F World)
  : state F World * result F :=
  match body param_values f_zero (world st) with
  | (w', (_, Some ex)) => (mkState w' (num_calls st) (published st), Raise ex)
  | (w', (energy, None)) =>
      let num_calls' := num_calls st + 1 in
      if (0 <? report_every) && (num_calls' `mod` report_every =? 0)
      then
        let msg : gmap string (value F) :=
          {[ "params" := VParams param_values;
             "energy" := VFloat energy;
             "num_calls" := VInt num_calls' ]} in
        match publish msg w' with
        | (w'', Some ex) =>
            (mkState w'' num_calls' (published st ++ [msg]), Raise ex)
        | (w'', None) =>
            (mkState w'' num_calls' (published st ++ [msg]), Ok energy)
        end
      else (mkState w' num_calls' (published st), Ok energy)
  end.

(** Lines 90-127 over [objective_function_via]. *)
Definition main_via
    (body : Backend -> QuantumCircuit -> PauliSumOp -> Z -> list F -> region F World)
    (backend : Backend) (ansatz : QuantumCircuit) (hamiltonian_op : PauliSumOp)
    (initial : option (list F)) (shots maxiter : Z) (tol : option F)
    (report_every : Z) (w : World)
  : state F World * result (gmap string (value F)) :=
  let st0 := mkState w 0 [] in
  let objective :=
    objective_function_via (body backend ansatz hamiltonian_op shots)
      report_every in
  let optimizer := mkCOBYLA maxiter tol in
  let initial := default_initial num_parameters ansatz initial in
  match minimize cobyla optimizer objective initial st0 with
  | (st1, Raise ex) => (st1, Raise ex)
  | (st1, Ok ret_x) =>
      match objective ret_x st1 with
      | (st2, Raise ex) => (st2, Raise ex)
      | (st2, Ok min_energy) =>
          (st2, Ok {[ "params" := VParams ret_x;
                      "energy" := VFloat min_energy;
                      "num_calls" := VInt (num_calls st2) ]})
      end
  end.

End Messenger.
End Messenger.

(** * Quantities used to describe circuits and runs *)

Module Shape.
Import Heisenberg.

Section Shape.
Context {F : Type} {PF : PyFloat F}.

(** An instruction that fits a register of [n] qubits: its qubits exist, and
    a gate on several qubits is given distinct ones. *)
Definition acts_within (n : nat) (i : instruction F) : Prop :=
  match i with
  | CX c t => (c < n)%nat /\ (t < n)%nat /\ c <> t
  | RZ _ q | H q | P _ q => (q < n)%nat
  | CircuitGate _ _ qs => Forall (fun q => (q < n)%nat) qs /\ NoDup qs
  end.

(** A circuit-gate applied to all [n] qubits of the register, in order. *)
Definition spans (n : nat) (i : instruction F) : Prop :=
  match i with
  | CircuitGate _ _ qs => qs = seq 0 n
  | _ => False
  end.

Definition is_cx (i : instruction F) : bool :=
  match i with CX _ _ => true | _ => false end.
Definition is_rz (i : instruction F) : bool :=
  match i with RZ _ _ => true | _ => false end.
Definition is_h (i : instruction F) : bool :=
  match i with H _ => true | _ => false end.
Definition is_p (i : instruction F) : bool :=
  match i with P _ _ => true | _ => false end.

(** A rotation whose angle is one of those listed: [rzs] for rz, [ps] for
    p; other instructions carry no angle. *)
Definition angle_among (rzs ps : list F) (i : instruction F) : Prop :=
  match i with
  | RZ theta _ => In theta rzs
  | P lam _ => In lam ps
  | _ => True
  end.

(** How many instructions of a list are of a given kind. *)
Fixpoint tally (kind : instruction F -> bool) (l : list (instruction F)) : nat :=
  match l with
  | [] => 0
  | i :: rest => ((if kind i then 1 else 0) + tally kind rest)%nat
  end.

End Shape.
End Shape.

Module Reports.
Import RuntimeVQE.

Section Reports.
Context {F : Type}.

(** The 'num_calls' entry of a published message. *)
Definition reported_calls (msg : gmap string (value F)) : option Z :=
  match msg !! "num_calls" with
  | Some (VInt n) => Some n
  | _ => None
  end.

(** The call numbers at which a report is due among the first [n] calls:
    [report_every], [2 * report_every], ... *)
Definition due (report_every n : Z) : list Z :=
  map (fun i => (Z.of_nat i + 1) * report_every)
      (seq 0 (Z.to_nat (n / report_every))).

(** The reports made so far are the ones that were due. *)
Definition on_schedule {World : Type} (report_every : Z)
    (st : state F World) : Prop :=
  0 <= num_calls st
  /\ map reported_calls (published st)
     = map Some (due report_every (num_calls st)).

End Reports.
End Reports.

(** * Scenarios used to run the embedding *)

Module Scenario.
Import RuntimeVQE.

(** A region that raises [JobError] on its first [n] attempts and then sets
    [energy] to 1.0; the world counts the attempts. *)
Definition flaky (n : nat) : unit -> unit -> unit -> Z -> region float nat :=
  fun _ _ _ _ e w =>
    (S w, if Nat.ltb w n then (e, Some JobError) else (1%float, None)).

(** A region whose first evaluation gives 1.0 and every later one 2.0. *)
Definition drifting : unit -> nat -> unit -> Z -> list float -> region float nat :=
  fun _ _ _ _ _ _ w =>
    (S w, (if Nat.eqb w 0 then 1%float else 2%float, None)).

(** An optimizer that evaluates its starting point once and stops there. *)
Definition one_probe (optimizer : COBYLA float) (x0 : list float)
  : strategy float :=
  Evaluate x0 (fun _ => Stop x0).

(** An ansatz is given by its number of parameters. *)
Definition width (ansatz : nat) : nat := ansatz.

(** A messenger that takes every message, and one that refuses them all. *)
Definition quiet_publish (msg : gmap string (value float)) (w : nat)
  : nat * option exn := (w, None).
Definition broken_publish (msg : gmap string (value float)) (w : nat)
  : nat * option exn := (w, Some (OtherError "publish failed")).

End Scenario.

(** * Properties of [trotter_twopi_heisenberg] *)

Module HeisenbergFacts.
Import Heisenberg.

Section Facts.
Context {F : Type} {PF : PyFloat F}.
Implicit Types (c : circuit F) (i : instruction F) (n j : nat) (g phase : F).

Lemma bind_unfold {A B} (m : build A) (k : A -> build B) c :
  (m ≫= k) c = match m c with
               | Ok (a, c') => k a c'
               | Raise e => Raise e
               end.
Proof. reflexivity. Qed.

Lemma append_ok i (qs : list nat) c :
  Forall (fun q => (q < num_qubits c)%nat) qs -> NoDup qs ->
  append i qs c = Ok (tt, _append i c).
Proof.
  intros Hrange Hdup. unfold append, has_dups.
  assert (Hall : forallb (fun q => Nat.ltb q (num_qubits c)) qs = true).
  { apply forallb_forall. intros q Hq. apply Nat.ltb_lt.
    rewrite Forall_forall in Hrange. apply Hrange. by apply list_elem_of_In. }
  rewrite Hall. simpl. by rewrite bool_decide_eq_true_2.
Qed.

Lemma append_then i (qs : list nat) (k : build unit) c :
  Forall (fun q => (q < num_qubits c)%nat) qs -> NoDup qs ->
  (append i qs ;; k) c = k (_append i c).
Proof. intros Hr Hd. rewrite bind_unfold, append_ok; done. Qed.

Lemma cx_same_qubit (q : nat) c :
  (q < num_qubits c)%nat ->
  cx q q c = Raise (CircuitError "duplicate qubit arguments").
Proof.
  intros Hq. unfold cx, append, has_dups.
  apply Nat.ltb_lt in Hq. simpl. rewrite Hq. simpl.
  rewrite bool_decide_eq_false_2; [done |].
  intros Hnd. apply NoDup_cons in Hnd as [Hnot _]. apply Hnot. by left.
Qed.

Lemma neighbour_lt n j : (0 < n)%nat -> ((j + 1) mod n < n)%nat.
Proof. intros. apply Nat.mod_upper_bound. lia. Qed.

Lemma neighbour_ne n j : (2 <= n)%nat -> (j < n)%nat -> j <> ((j + 1) mod n)%nat.
Proof.
  intros Hn Hj. destruct (decide (j + 1 = n)%nat) as [Heq|Hne].
  - rewrite Heq, Nat.Div0.mod_same. lia.
  - rewrite Nat.mod_small; lia.
Qed.

Lemma NoDup_one (q : nat) : NoDup [q].
Proof. apply NoDup_singleton. Qed.

Lemma NoDup_two (q r : nat) : q <> r -> NoDup [q; r].
Proof.
  intros Hne. apply NoDup_cons. split; [| apply NoDup_singleton].
  intros Hin. apply list_elem_of_singleton in Hin. done.
Qed.

(** One command of the loop body goes through: the instruction joins the
    ones emitted so far. *)
Lemma emit_then i (qs : list nat) (k : build unit)
    (nm : string) (nq : nat) (dt emitted : list (instruction F)) :
  Forall (fun q => (q < nq)%nat) qs -> NoDup qs ->
  (append i qs ;; k) (mkCircuit nm nq (dt ++ emitted))
  = k (mkCircuit nm nq (dt ++ (emitted ++ [i]))).
Proof.
  intros Hr Hd. rewrite append_then by done.
  unfold _append. cbn [name num_qubits data]. by rewrite <- app_assoc.
Qed.

Lemma in_range1 (nq q : nat) :
  (q < nq)%nat -> Forall (fun q => (q < nq)%nat) [q].
Proof. intros. by repeat constructor. Qed.

Lemma in_range2 (nq q r : nat) :
  (q < nq)%nat -> (r < nq)%nat -> Forall (fun q => (q < nq)%nat) [q; r].
Proof. intros. by repeat constructor. Qed.

Ltac emit :=
  rewrite emit_then;
  [ cbn [app]
  | first [ apply in_range1 | apply in_range2 ]; assumption
  | first [ apply NoDup_one | apply NoDup_two; assumption ] ].

(** The loop body, for a pair of distinct qubits of the register, appends
    exactly the gates of that pair. *)
Lemma spin_body_ok n g phase j c :
  num_qubits c = n -> (2 <= n)%nat -> (j < n)%nat ->
  spin_body n g phase j c
  = Ok (tt, mkCircuit (name c) n (data c ++ pair_gates n g phase j)).
Proof.
  intros Hn Hn2 Hj.
  pose proof (neighbour_lt n j ltac:(lia)) as Hk.
  pose proof (neighbour_ne n j Hn2 Hj) as Hjk.
  destruct c as [nm nq dt]. cbn [name num_qubits data] in *. subst nq.
  unfold spin_body, pair_gates, field_block, ZZ_block, XX_block, YY_block,
    cx, rz, h, p.
  generalize dependent ((j + 1) mod n)%nat. intros k Hk Hjk.
  rewrite <- (app_nil_r dt) at 1.
  do 21 emit.
  destruct (f_eqb g f_zero); cbn [negb app].
  - reflexivity.
  - rewrite append_ok; [| by apply in_range1 | apply NoDup_one ].
    unfold _append. cbn [name num_qubits data].
    rewrite <- app_assoc. reflexivity.
Qed.

(** With a single qubit the first [cx] of the loop body is refused. *)
Lemma spin_body_one g phase c :
  num_qubits c = 1%nat ->
  spin_body 1 g phase 0 c = Raise (CircuitError "duplicate qubit arguments").
Proof.
  intros Hn. unfold spin_body. rewrite bind_unfold.
  change ((0 + 1) mod 1)%nat with 0%nat.
  rewrite cx_same_qubit; [done | lia].
Qed.

Lemma for_each_ok n g phase (js : list nat) c :
  num_qubits c = n -> (2 <= n)%nat -> Forall (fun j => (j < n)%nat) js ->
  for_each js (spin_body n g phase) c
  = Ok (tt, mkCircuit (name c) n
              (data c ++ flat_map (pair_gates n g phase) js)).
Proof.
  intros Hn Hn2 Hjs. revert c Hn.
  induction Hjs as [| j js Hj _ IH]; intros c Hn.
  - simpl. rewrite app_nil_r. destruct c; simpl in *. by subst.
  - simpl. rewrite bind_unfold, (spin_body_ok n g phase j c Hn Hn2 Hj).
    rewrite IH by done. simpl. by rewrite <- app_assoc.
Qed.

Lemma seq_below n : Forall (fun j => (j < n)%nat) (seq 0 n).
Proof. apply Forall_forall. intros j Hj. apply list_elem_of_In, in_seq in Hj. lia. Qed.

(** What the loop of [single_step] does, for every register size. *)
Lemma loop_outcome n g phase (nm : string) :
  for_each (seq 0 n) (spin_body n g phase) (QuantumCircuit n nm)
  = if decide (n = 1%nat)
    then Raise (CircuitError "duplicate qubit arguments")
    else Ok (tt, mkCircuit nm n (step_gates n g phase)).
Proof.
  destruct (decide (n = 1%nat)) as [-> | Hn1].
  - simpl. rewrite bind_unfold, spin_body_one; done.
  - destruct n as [| n]; [done |].
    rewrite for_each_ok; [done | done | lia | apply seq_below].
Qed.

(** [single_step] on every input. *)
Lemma single_step_outcome n (energy_norm g : F) (num_steps : Z) :
  single_step n energy_norm g num_steps
  = match f_of_int num_steps with
    | None => Raise OverflowError
    | Some d =>
        if f_eqb d f_zero then Raise ZeroDivisionError
        else if decide (n = 1%nat)
        then Raise (CircuitError "duplicate qubit arguments")
        else Ok (mkCircuit "ΔU" n (step_gates n g (phase_of energy_norm d)))
    end.
Proof.
  unfold single_step, truediv.
  destruct (f_of_int num_steps) as [d |]; [| done].
  destruct (f_eqb d f_zero); [done |].
  rewrite loop_outcome. by destruct (decide (n = 1%nat)).
Qed.

(** [repeat] puts [reps] copies of the circuit, as one gate each, on an
    empty circuit over the same qubits. *)
Lemma fold_append_gate i (xs : list nat) c :
  fold_left (fun rc _ => _append i rc) xs c
  = mkCircuit (name c) (num_qubits c) (data c ++ replicate (length xs) i).
Proof.
  revert c. induction xs as [| x xs IH]; intros c; simpl.
  - rewrite app_nil_r. by destruct c.
  - rewrite IH. simpl. by rewrite <- app_assoc.
Qed.

Lemma repeat_data (reps : Z) c :
  data (repeat reps c) = replicate (Z.to_nat reps) (to_gate c)
  /\ num_qubits (repeat reps c) = num_qubits c.
Proof.
  unfold repeat. destruct (0 <? reps) eqn:Hpos.
  - rewrite fold_append_gate. simpl. by rewrite length_seq.
  - apply Z.ltb_ge in Hpos. simpl.
    replace (Z.to_nat reps) with 0%nat by lia. done.
Qed.

Lemma place_identity n (q : nat) : place (seq 0 n) q = q.
Proof.
  unfold place. destruct (decide (q < n)%nat) as [Hlt | Hge].
  - by rewrite seq_nth.
  - rewrite nth_overflow; [done |]. rewrite length_seq. lia.
Qed.

(** Applied to all qubits in order, a gate made from a circuit of simple
    instructions stands for the data of that circuit. *)
Lemma relabel_identity n (l : list (instruction F)) :
  Forall simple l -> map (relabel (seq 0 n)) l = l.
Proof.
  induction 1 as [| i l Hi _ IH]; [done |].
  simpl. rewrite IH. f_equal.
  destruct i; simpl in *; rewrite ?place_identity; done.
Qed.

Lemma pair_gates_simple n g phase j : Forall simple (pair_gates n g phase j).
Proof.
  unfold pair_gates, ZZ_block, XX_block, YY_block, field_block.
  destruct (f_eqb g f_zero); repeat (apply Forall_cons; split; [exact I |]);
    simpl; repeat constructor.
Qed.

Lemma step_gates_simple n g phase : Forall simple (step_gates n g phase).
Proof.
  unfold step_gates. apply Forall_flat_map, Forall_forall.
  intros j _. apply pair_gates_simple.
Qed.

Lemma expand_replicate (k : nat) c :
  Forall simple (data c) ->
  flat_map expand (replicate k (to_gate c))
  = concat (replicate k (data c)).
Proof.
  intros Hs. induction k as [| k IH]; [done |].
  simpl. rewrite IH. f_equal. by apply relabel_identity.
Qed.

Lemma pair_gates_length n g phase j :
  length (pair_gates n g phase j)
  = (21 + (if f_eqb g f_zero then 0 else 1))%nat.
Proof.
  unfold pair_gates, ZZ_block, XX_block, YY_block, field_block.
  by destruct (f_eqb g f_zero).
Qed.

Lemma flat_map_length_const {A B} (f : A -> list B) (k : nat) (xs : list A) :
  (forall x, length (f x) = k) -> length (flat_map f xs) = (length xs * k)%nat.
Proof.
  intros Hf. induction xs as [| x xs IH]; [done |].
  simpl. rewrite length_app, Hf, IH. lia.
Qed.

Lemma step_gates_length n g phase :
  length (step_gates n g phase)
  = (n * (21 + (if f_eqb g f_zero then 0 else 1)))%nat.
Proof.
  unfold step_gates.
  rewrite (flat_map_length_const _ _ _ (pair_gates_length n g phase)).
  by rewrite length_seq.
Qed.

(** [trotter_twopi_heisenberg] on every input on which one step is built. *)
Lemma trotter_outcome n (energy_norm g : F) (num_steps : Z) (d : F) :
  n <> 1%nat -> f_of_int num_steps = Some d -> f_eqb d f_zero = false ->
  let step := mkCircuit "ΔU" n (step_gates n g (phase_of energy_norm d)) in
  single_step n energy_norm g num_steps = Ok step
  /\ trotter_twopi_heisenberg n energy_norm g num_steps
     = Ok (mkCircuit "U" n (replicate (Z.to_nat num_steps) (to_gate step))).
Proof.
  intros Hn Hd Hnz step.
  assert (Hstep : single_step n energy_norm g num_steps = Ok step).
  { rewrite single_step_outcome, Hd, Hnz. by destruct (decide (n = 1%nat)). }
  split; [done |].
  unfold trotter_twopi_heisenberg. rewrite Hstep. unfold set_name.
  destruct (repeat_data num_steps step) as [-> ->]. done.
Qed.

(** C1. For a register of [n] spins on which the step is built ([n] is not 1
    and [2*pi / num_steps] is defined), the single Trotter-step circuit holds,
    for j = 0 .. n-1 in order and k = (j+1) mod n: the ZZ block
    cx, rz(-2*phase), cx; the XX block h, h, cx, rz(-2*phase), cx, h, h; the
    YY block p(-pi/2), p(-pi/2), h, h, cx, rz(-2*phase), cx, h, h, p(pi/2),
    p(pi/2); and then the field rotation rz(-2*g*phase, j) exactly when
    g != 0; here phase = -energy_norm * (2*pi / num_steps). *)
Theorem single_step_emits_couplings n (energy_norm g : F) (num_steps : Z) (d : F) :
  n <> 1%nat -> f_of_int num_steps = Some d -> f_eqb d f_zero = false ->
  let phase := f_mul (f_neg energy_norm) (f_div (f_mul f_two f_pi) d) in
  let theta := f_mul (f_neg f_two) phase in
  exists step,
    single_step n energy_norm g num_steps = Ok step
    /\ data step
       = flat_map (fun j =>
           let k := ((j + 1) mod n)%nat in
           [CX j k; RZ theta k; CX j k]
           ++ [H j; H k; CX j k; RZ theta k; CX j k; H j; H k]
           ++ [P (f_div (f_neg f_pi) f_two) j; P (f_div (f_neg f_pi) f_two) k;
               H j; H k; CX j k; RZ theta k; CX j k; H j; H k;
               P (f_div f_pi f_two) j; P (f_div f_pi f_two) k]
           ++ field_block g phase j) (seq 0 n)
    /\ (forall j,
          field_block g phase j = [RZ (f_mul (f_mul (f_neg f_two) g) phase) j]
          <-> negb (f_eqb g f_zero) = true)
    /\ (forall j, field_block g phase j = [] <-> negb (f_eqb g f_zero) = false).
Proof.
  intros Hn Hd Hnz phase theta.
  destruct (trotter_outcome n energy_norm g num_steps d Hn Hd Hnz) as [Hstep _].
  eexists. split; [exact Hstep |]. split; [reflexivity |].
  unfold field_block. split; intros j; destruct (f_eqb g f_zero); simpl;
    split; intros; try done.
Qed.

(** C2. On every input on which a circuit is returned, it is the single-step
    circuit repeated [num_steps] times: its name is 'U', its data are
    [num_steps] copies of the step taken as one gate on all qubits, and the
    gate sequence it stands for is that of the step, [num_steps] times over. *)
Theorem trotter_is_repeated_step n (energy_norm g : F) (num_steps : Z) (d : F) :
  n <> 1%nat -> f_of_int num_steps = Some d -> f_eqb d f_zero = false ->
  exists step,
    single_step n energy_norm g num_steps = Ok step
    /\ trotter_twopi_heisenberg n energy_norm g num_steps
       = Ok (mkCircuit "U" n (replicate (Z.to_nat num_steps) (to_gate step)))
    /\ forall c, trotter_twopi_heisenberg n energy_norm g num_steps = Ok c ->
         name c = "U"
         /\ length (data c) = Z.to_nat num_steps
         /\ gate_sequence c
            = concat (replicate (Z.to_nat num_steps) (data step)).
Proof.
  intros Hn Hd Hnz.
  destruct (trotter_outcome n energy_norm g num_steps d Hn Hd Hnz)
    as [Hstep Htrot].
  eexists. split; [exact Hstep |]. split; [exact Htrot |].
  intros c Hc. rewrite Htrot in Hc. injection Hc as <-. simpl.
  split; [done |]. split; [by rewrite length_replicate |].
  unfold gate_sequence. simpl. apply expand_replicate. simpl.
  apply step_gates_simple.
Qed.

(** C5 (amended). The editable region of [trotter_twopi_heisenberg] holds a
    finished gate-emission loop: on every input on which a circuit is
    returned, each of its [num_steps] steps carries 21 operations per spin,
    and one more per spin when g != 0. *)
Theorem trotter_region_emits_gates n (energy_norm g : F) (num_steps : Z) (d : F) :
  n <> 1%nat -> f_of_int num_steps = Some d -> f_eqb d f_zero = false ->
  exists c,
    trotter_twopi_heisenberg n energy_norm g num_steps = Ok c
    /\ length (gate_sequence c)
       = (Z.to_nat num_steps
          * (n * (21 + (if negb (f_eqb g f_zero) then 1 else 0))))%nat.
Proof.
  intros Hn Hd Hnz.
  destruct (trotter_outcome n energy_norm g num_steps d Hn Hd Hnz)
    as [_ Htrot].
  eexists. split; [exact Htrot |].
  unfold gate_sequence. simpl.
  rewrite expand_replicate by apply step_gates_simple. simpl.
  generalize (Z.to_nat num_steps). intros k.
  induction k as [| k IH]; [done |].
  simpl. rewrite length_app, IH, step_gates_length.
  destruct (f_eqb g f_zero); simpl; lia.
Qed.

(** C9 (amended). With exactly one spin the neighbour (j+1) mod n_spins of
    spin j = 0 is 0 itself, the first cx is refused for its duplicate qubit,
    and the function raises on every input.  A circuit is returned exactly
    when the register size is not one and [2*pi / num_steps] is defined: for
    at least two spins, and for the empty register, where the loop body never
    runs. *)
Theorem one_spin_register_fails n (energy_norm g : F) (num_steps : Z) :
  ((0 + 1) mod 1 = 0)%nat
  /\ (forall c, num_qubits c = 1%nat ->
        cx 0 ((0 + 1) mod 1) c = Raise (CircuitError "duplicate qubit arguments"))
  /\ (n = 1%nat ->
        (exists e, trotter_twopi_heisenberg n energy_norm g num_steps = Raise e)
        /\ forall d, f_of_int num_steps = Some d -> f_eqb d f_zero = false ->
             trotter_twopi_heisenberg n energy_norm g num_steps
             = Raise (CircuitError "duplicate qubit arguments"))
  /\ ((exists c, trotter_twopi_heisenberg n energy_norm g num_steps = Ok c)
      <-> n <> 1%nat
          /\ exists d, f_of_int num_steps = Some d /\ f_eqb d f_zero = false).
Proof.
  split; [done |]. split.
  { intros c Hc. change ((0 + 1) mod 1)%nat with 0%nat.
    apply cx_same_qubit. lia. }
  assert (Hout := single_step_outcome n energy_norm g num_steps).
  unfold trotter_twopi_heisenberg. split.
  - intros ->. rewrite Hout. split.
    + destruct (f_of_int num_steps) as [d |]; [| by eexists].
      destruct (f_eqb d f_zero); by eexists.
    + intros d -> ->. done.
  - rewrite Hout. split.
    + intros [c Hc]. destruct (f_of_int num_steps) as [d |]; [| done].
      destruct (f_eqb d f_zero) eqn:Hnz; [done |].
      destruct (decide (n = 1%nat)); [done |]. eauto.
    + intros [Hn (d & -> & ->)]. destruct (decide (n = 1%nat)); [done |].
      by eexists.
Qed.

End Facts.

(** The developments above, run on binary64 floats. *)

Lemma single_step_emits_couplings_witness :
  3%nat <> 1%nat /\ prim_of_int 4 = Some 4%float
  /\ PrimFloat.eqb 4 0 = false
  /\ exists step,
       single_step 3 1%float 0.5%float 4 = Ok step
       /\ length (data step) = 66%nat.
Proof.
  split; [lia |]. split; [reflexivity |]. split; [reflexivity |].
  destruct (single_step_emits_couplings (F := float) 3 1%float 0.5%float 4
              4%float ltac:(lia) eq_refl eq_refl) as (step & Hstep & Hdata & _).
  exists step. split; [exact Hstep |]. rewrite Hdata. reflexivity.
Defined.

Lemma trotter_is_repeated_step_witness :
  2%nat <> 1%nat /\ prim_of_int 3 = Some 3%float
  /\ PrimFloat.eqb 3 0 = false
  /\ exists step,
       single_step 2 1%float 0%float 3 = Ok step
       /\ trotter_twopi_heisenberg 2 1%float 0%float 3
          = Ok (mkCircuit "U" 2 (replicate 3 (to_gate step))).
Proof.
  split; [lia |]. split; [reflexivity |]. split; [reflexivity |].
  destruct (trotter_is_repeated_step (F := float) 2 1%float 0%float 3
              3%float ltac:(lia) eq_refl eq_refl) as (step & Hstep & Htrot & _).
  exists step. split; [exact Hstep | exact Htrot].
Defined.

Lemma trotter_region_emits_gates_witness :
  2%nat <> 1%nat /\ prim_of_int 1 = Some 1%float
  /\ PrimFloat.eqb 1 0 = false
  /\ exists c,
       trotter_twopi_heisenberg 2 1%float 0%float 1 = Ok c
       /\ length (gate_sequence c) = 42%nat.
Proof.
  split; [lia |]. split; [reflexivity |]. split; [reflexivity |].
  apply (trotter_region_emits_gates (F := float) 2 1%float 0%float 1
           1%float ltac:(lia) eq_refl eq_refl).
Defined.

Example one_spin_raises :
  trotter_twopi_heisenberg 1 1%float 0%float 2
  = Raise (CircuitError "duplicate qubit arguments").
Proof. vm_compute. reflexivity. Qed.

Example zero_steps_raises :
  trotter_twopi_heisenberg 2 1%float 0%float 0 = Raise ZeroDivisionError.
Proof. vm_compute. reflexivity. Qed.

(** Two spins, energy_norm 1, two steps: phase is -pi and the coupling
    rotations are rz(2*pi). *)
Example first_ZZ_block :
  match single_step 2 1%float 0%float 2 with
  | Ok step => firstn 3 (data step)
  | Raise _ => []
  end
  = [CX 0 1; RZ 0x1.921fb54442d18p+2%float 1; CX 0 1].
Proof. vm_compute. reflexivity. Qed.

(** With a field, a 22nd gate closes the gates of each pair. *)
Example field_rotation_last :
  match single_step 2 1%float 0.5%float 2 with
  | Ok step => (length (data step), nth_error (data step) 21)
  | Raise _ => (0%nat, None)
  end
  = (44%nat, Some (RZ 0x1.921fb54442d18p+1%float 0)).
Proof. vm_compute. reflexivity. Qed.

(** C5 as stated fails: on two spins, one step and no field the returned
    circuit carries the 42 operations the region emits. *)
Lemma trotter_region_not_empty :
  ~ (forall (n : nat) (energy_norm g : float) (num_steps : Z) c,
       trotter_twopi_heisenberg n energy_norm g num_steps = Ok c ->
       gate_sequence c = []).
Proof.
  intros Hclaim.
  destruct (trotter_outcome (F := float) 2 1%float 0%float 1 1%float
              ltac:(lia) eq_refl eq_refl) as [_ Hrun].
  apply Hclaim in Hrun. discriminate Hrun.
Qed.

(** C9 as stated fails at the empty register: the loop body never runs and a
    circuit is returned. *)
Lemma empty_register_succeeds :
  trotter_twopi_heisenberg 0 1%float 0%float 1
  = Ok (mkCircuit "U" 0 [CircuitGate "ΔU" [] []])
  /\ ~ (forall (n : nat) (energy_norm g : float) (num_steps : Z) c,
          trotter_twopi_heisenberg n energy_norm g num_steps = Ok c ->
          (2 <= n)%nat).
Proof.
  destruct (trotter_outcome (F := float) 0 1%float 0%float 1 1%float
              ltac:(lia) eq_refl eq_refl) as [_ Hrun].
  split; [exact Hrun |].
  intros Hclaim. apply Hclaim in Hrun. lia.
Qed.

End HeisenbergFacts.

(** * Properties of [energy_expval] and [main] *)

Module RuntimeFacts.
Import RuntimeVQE.

Section Facts.
Context {F : Type} {PF : PyFloat F} {World : Type}.
Context {QuantumCircuit PauliSumOp Backend : Type}.
Context (num_parameters : QuantumCircuit -> nat).
Context (cobyla : COBYLA F -> list F -> strategy F).
Implicit Types (body : region F World) (w : World) (st : state F World).

(** ** The retry loop *)

Lemma world_at_shift body (k : nat) w :
  world_at body k (fst (body f_zero w)) = world_at body (S k) w.
Proof.
  induction k as [| k IH]; [done |].
  simpl. rewrite IH. done.
Qed.

Lemma attempt_shift body (i : nat) w :
  attempt body (fst (body f_zero w)) i = attempt body w (S i).
Proof. unfold attempt. by rewrite world_at_shift. Qed.

(** The loop over the attempts [s], [s+1], ..., 4: it stops at the first
    attempt [s + k] that does not raise [JobError], or at attempt 4. *)
Lemma retry_loop_outcome body (len s : nat) (e0 : option F) w :
  (s + len = 5)%nat -> (0 < len)%nat ->
  exists k : nat,
    (k < len)%nat
    /\ (forall i : nat, (i < k)%nat -> snd (attempt body w i) = Some JobError)
    /\ fst (retry_loop body (map Z.of_nat (seq s len)) e0 w)
       = world_at body (S k) w
    /\ match attempt body w k with
       | (e, None) =>
           snd (retry_loop body (map Z.of_nat (seq s len)) e0 w) = Ok e
       | (_, Some ex) =>
           snd (retry_loop body (map Z.of_nat (seq s len)) e0 w) = Raise ex
           /\ (ex = JobError -> (s + k = 4)%nat)
       end.
Proof.
  revert s e0 w. induction len as [| len IH]; intros s e0 w Hs Hlen; [lia |].
  cbn [seq map retry_loop].
  destruct (body f_zero w) as [w1 [e1 o]] eqn:Hbody.
  assert (Hatt : attempt body w 0 = (e1, o)).
  { unfold attempt. simpl. by rewrite Hbody. }
  assert (Hw1 : world_at body 1 w = w1).
  { simpl. by rewrite Hbody. }
  destruct o as [ex |].
  - destruct (decide (ex = JobError)) as [-> | Hex].
    + unfold NUM_RETRIES. destruct (Z.of_nat s =? 5 - 1) eqn:Hlast.
      * apply Z.eqb_eq in Hlast. exists 0%nat.
        split; [lia |]. split; [intros; lia |]. split; [done |].
        rewrite Hatt. simpl. split; [done | lia].
      * apply Z.eqb_neq in Hlast.
        destruct (IH (S s) (Some e1) w1 ltac:(lia) ltac:(lia))
          as (k & Hk & Hbefore & Hworld & Hend).
        assert (Hw : w1 = fst (body f_zero w)) by (by rewrite Hbody).
        exists (S k). split; [lia |]. split; [| split].
        -- intros [| i] Hi; [by rewrite Hatt |].
           rewrite <- attempt_shift, <- Hw. apply Hbefore. lia.
        -- rewrite Hworld, Hw. apply world_at_shift.
        -- rewrite <- attempt_shift, <- Hw.
           destruct (attempt body w1 k) as [e [ex |]]; [| done].
           destruct Hend as [Hres Hk4]. split; [done |].
           intros Hex. specialize (Hk4 Hex). lia.
    + exists 0%nat. split; [lia |]. split; [intros; lia |].
      rewrite Hatt. destruct ex; done.
  - exists 0%nat. split; [lia |]. split; [intros; lia |].
    rewrite Hatt. done.
Qed.

(** C3. [energy_expval] makes k+1 <= NUM_RETRIES = 5 attempts at its body:
    the attempts before the last one all raised [JobError] and were retried;
    the last one either did not raise, and then its energy is returned at
    once, or raised something, which reaches the caller, and when that is a
    [JobError] it was the 5th attempt.  Hence [JobError] is raised if and only
    if all 5 attempts raise [JobError]. *)
Theorem energy_expval_retries
    (body : QuantumCircuit -> PauliSumOp -> Backend -> Z -> region F World)
    (circuit : QuantumCircuit) (hamiltonian_op : PauliSumOp)
    (backend : Backend) (shots : Z) w :
  let tried := body circuit hamiltonian_op backend shots in
  let run := energy_expval body circuit hamiltonian_op backend shots w in
  NUM_RETRIES = 5
  /\ (exists k : nat,
        (Z.of_nat k + 1 <= NUM_RETRIES)
        /\ (forall i : nat, (i < k)%nat ->
              snd (attempt tried w i) = Some JobError)
        /\ fst run = world_at tried (S k) w
        /\ match attempt tried w k with
           | (e, None) => snd run = Ok e
           | (_, Some ex) =>
               snd run = Raise ex
               /\ (ex = JobError -> Z.of_nat k = NUM_RETRIES - 1)
           end)
  /\ (snd run = Raise JobError
      <-> forall i : nat, (i < 5)%nat ->
            snd (attempt tried w i) = Some JobError).
Proof.
  intros tried run. split; [done |].
  destruct (retry_loop_outcome tried 5 0 None w eq_refl ltac:(lia))
    as (k & Hk & Hbefore & Hworld & Hend).
  change (retry_loop tried (map Z.of_nat (seq 0 5)) None w) with run in *.
  split.
  - exists k. unfold NUM_RETRIES. split; [lia |]. split; [done |].
    split; [done |].
    destruct (attempt tried w k) as [e [ex |]]; [| done].
    destruct Hend as [Hres Hlast]. split; [done |].
    intros Hex. specialize (Hlast Hex). lia.
  - split.
    + intros Hraise i Hi.
      destruct (attempt tried w k) as [e [ex |]] eqn:Hatt.
      * destruct Hend as [Hres Hlast]. rewrite Hres in Hraise.
        injection Hraise as ->. specialize (Hlast eq_refl).
        assert (k = 4)%nat as -> by lia.
        destruct (decide (i = 4)%nat) as [-> | Hne]; [by rewrite Hatt |].
        apply Hbefore. lia.
      * rewrite Hend in Hraise. discriminate.
    + intros Hall. specialize (Hall k Hk).
      destruct (attempt tried w k) as [e [ex |]]; [| discriminate].
      simpl in Hall. injection Hall as ->. by destruct Hend.
Qed.

(** ** The objective function *)

#[local] Abbreviation payload x e n :=
  ({[ "params" := VParams x; "energy" := VFloat e; "num_calls" := VInt n ]}
     : gmap string (value F)).

Lemma payload_keys (x : list F) (e : F) (n : Z) :
  dom (payload x e n) = ({[ "params"; "energy"; "num_calls" ]} : gset string)
  /\ payload x e n !! "params" = Some (VParams x)
  /\ payload x e n !! "energy" = Some (VFloat e)
  /\ payload x e n !! "num_calls" = Some (VInt n).
Proof.
  split; [| by repeat split].
  rewrite !dom_insert_L, dom_singleton_L. set_solver.
Qed.

(** One call, by the way the region is left. *)
Lemma objective_function_outcome (body : list F -> region F World)
    (report_every : Z) (x : list F) st :
  objective_function body report_every x st
  = match body x f_zero (world st) with
    | (w', (_, Some ex)) =>
        (mkState w' (num_calls st) (published st), Raise ex)
    | (w', (e, None)) =>
        (mkState w' (num_calls st + 1)
           (if reports report_every (num_calls st + 1)
            then published st ++ [payload x e (num_calls st + 1)]
            else published st),
         Ok e)
    end.
Proof.
  unfold objective_function, reports.
  destruct (body x f_zero (world st)) as [w' [e [ex |]]]; [done |].
  by destruct ((0 <? report_every)
               && ((num_calls st + 1) `mod` report_every =? 0)).
Qed.

Lemma reports_never (report_every n : Z) :
  report_every <= 0 -> reports report_every n = false.
Proof.
  intros Hre. unfold reports.
  destruct (0 <? report_every) eqn:Hpos; [| done].
  apply Z.ltb_lt in Hpos. lia.
Qed.

Lemma objective_function_silent (body : list F -> region F World)
    (report_every : Z) (x : list F) st :
  report_every <= 0 ->
  published (fst (objective_function body report_every x st)) = published st.
Proof.
  intros Hre. rewrite objective_function_outcome.
  destruct (body x f_zero (world st)) as [w' [e [ex |]]]; [done |].
  simpl. by rewrite reports_never.
Qed.

Lemma drive_silent (body : list F -> region F World) (report_every : Z)
    (s : strategy F) st :
  report_every <= 0 ->
  published (fst (drive s (objective_function body report_every) st))
  = published st.
Proof.
  intros Hre. revert st. induction s as [x | x next IH]; intros st; [done |].
  simpl.
  pose proof (objective_function_silent body report_every x st Hre) as Hcall.
  destruct (objective_function body report_every x st) as [st' [e | ex]];
    simpl in Hcall; [| done].
  by rewrite IH.
Qed.

(** ** The optimisation loop *)

(** With a region that cannot raise, a call returns and counts. *)
Lemma objective_function_returns (body : list F -> region F World)
    (report_every : Z) (x : list F) st :
  completes (body x) ->
  exists st' e,
    objective_function body report_every x st = (st', Ok e)
    /\ num_calls st' = num_calls st + 1
    /\ e = fst (snd (body x f_zero (world st))).
Proof.
  intros Hbody. rewrite objective_function_outcome.
  specialize (Hbody f_zero (world st)).
  destruct (body x f_zero (world st)) as [w' [e [ex |]]]; [done |].
  by eexists _, _.
Qed.

Lemma drive_returns (body : list F -> region F World) (report_every : Z)
    (s : strategy F) st :
  (forall x, completes (body x)) ->
  exists st' ret_x,
    drive s (objective_function body report_every) st = (st', Ok ret_x)
    /\ num_calls st'
       = num_calls st
         + Z.of_nat (evaluations s (objective_function body report_every) st).
Proof.
  intros Hbody. revert st. induction s as [x | x next IH]; intros st.
  - exists st, x. simpl. split; [done | lia].
  - simpl.
    destruct (objective_function_returns body report_every x st (Hbody x))
      as (st1 & e & -> & Hcount & _).
    destruct (IH e st1) as (st' & ret_x & -> & Hcalls).
    exists st', ret_x. split; [done | lia].
Qed.

(** [main] with a region that cannot raise. *)
Lemma main_outcome
    (body : Backend -> QuantumCircuit -> PauliSumOp -> Z -> list F -> region F World)
    (backend : Backend) (ansatz : QuantumCircuit) (hamiltonian_op : PauliSumOp)
    (initial : option (list F)) (shots maxiter : Z) (tol : option F)
    (report_every : Z) w :
  (forall x, completes (body backend ansatz hamiltonian_op shots x)) ->
  let objective :=
    objective_function (body backend ansatz hamiltonian_op shots) report_every in
  let x0 := default_initial num_parameters ansatz initial in
  let asked := cobyla (mkCOBYLA maxiter tol) x0 in
  exists st1 ret_x st2 min_energy,
    minimize cobyla (mkCOBYLA maxiter tol) objective x0 (mkState w 0 [])
    = (st1, Ok ret_x)
    /\ num_calls st1 = Z.of_nat (evaluations asked objective (mkState w 0 []))
    /\ objective ret_x st1 = (st2, Ok min_energy)
    /\ num_calls st2 = num_calls st1 + 1
    /\ main num_parameters cobyla body backend ansatz hamiltonian_op initial
         shots maxiter tol report_every w
       = (st2, Ok (payload ret_x min_energy (num_calls st2))).
Proof.
  intros Hbody objective x0 asked.
  destruct (drive_returns _ report_every asked (mkState w 0 []) Hbody)
    as (st1 & ret_x & Hdrive & Hcalls).
  destruct (objective_function_returns _ report_every ret_x st1 (Hbody ret_x))
    as (st2 & min_energy & Hlast & Hcount & _).
  exists st1, ret_x, st2, min_energy.
  split; [exact Hdrive |].
  split; [rewrite Hcalls; apply Z.add_0_l |].
  split; [exact Hlast |]. split; [exact Hcount |].
  unfold main, minimize.
  fold x0. fold asked.
  fold objective in Hdrive, Hlast |- *.
  rewrite Hdrive, Hlast. done.
Qed.

Lemma reports_spec (report_every n : Z) :
  reports report_every n = true <-> 0 < report_every /\ n `mod` report_every = 0.
Proof.
  unfold reports. rewrite andb_true_iff, Z.ltb_lt, Z.eqb_eq. done.
Qed.

(** C4. When the evaluation cannot raise, [main] runs the COBYLA optimizer
    built from [maxiter] and [tol] on its objective function from the initial
    parameter vector (0.01 everywhere when none is given), and returns a
    dictionary with exactly the keys 'params', 'energy' and 'num_calls': the
    optimizer's final parameter values, the objective value at them, and the
    number of calls of the objective function made. *)
Theorem main_returns_result
    (body : Backend -> QuantumCircuit -> PauliSumOp -> Z -> list F -> region F World)
    (backend : Backend) (ansatz : QuantumCircuit) (hamiltonian_op : PauliSumOp)
    (initial : option (list F)) (shots maxiter : Z) (tol : option F)
    (report_every : Z) w :
  (forall x, completes (body backend ansatz hamiltonian_op shots x)) ->
  let objective :=
    objective_function (body backend ansatz hamiltonian_op shots) report_every in
  let x0 :=
    match initial with
    | None => replicate (num_parameters ansatz) f_centi
    | Some x => x
    end in
  exists st1 ret_x st2 min_energy d,
    minimize cobyla (mkCOBYLA maxiter tol) objective x0 (mkState w 0 [])
    = (st1, Ok ret_x)
    /\ objective ret_x st1 = (st2, Ok min_energy)
    /\ main num_parameters cobyla body backend ansatz hamiltonian_op initial
         shots maxiter tol report_every w
       = (st2, Ok d)
    /\ dom d = ({[ "params"; "energy"; "num_calls" ]} : gset string)
    /\ d !! "params" = Some (VParams ret_x)
    /\ d !! "energy" = Some (VFloat min_energy)
    /\ d !! "num_calls" = Some (VInt (num_calls st2))
    /\ num_calls st2
       = Z.of_nat
           (evaluations (cobyla (mkCOBYLA maxiter tol) x0) objective
              (mkState w 0 []) + 1).
Proof.
  intros Hbody objective x0.
  destruct (main_outcome body backend ansatz hamiltonian_op initial shots
              maxiter tol report_every w Hbody)
    as (st1 & ret_x & st2 & min_energy & Hmin & Hcalls & Hlast & Hcount & Hmain).
  destruct (payload_keys ret_x min_energy (num_calls st2))
    as (Hdom & Hparams & Henergy & Hnum).
  exists st1, ret_x, st2, min_energy, (payload ret_x min_energy (num_calls st2)).
  split; [exact Hmin |]. split; [exact Hlast |]. split; [exact Hmain |].
  split; [exact Hdom |]. split; [exact Hparams |]. split; [exact Henergy |].
  split; [exact Hnum |].
  rewrite Hcount, Hcalls, Nat2Z.inj_add. reflexivity.
Qed.

(** A region that assigns nothing leaves [energy] at its initial value 0.0:
    the objective function returns 0.0; [energy_expval], with [pass] for the
    suite of its [try], returns 0.0 after a single attempt and leaves the
    world as it was; and the 'energy' entry of the dictionary [main] returns
    is 0.0, whatever the ansatz, the Hamiltonian, the backend and the
    optimizer. *)
Lemma unassigned_energy_is_zero
    (backend : Backend) (ansatz circuit : QuantumCircuit)
    (hamiltonian_op : PauliSumOp)
    (initial : option (list F)) (shots maxiter : Z) (tol : option F)
    (report_every : Z) (x : list F) st w :
  snd (objective_function (fun _ => supplied) report_every x st) = Ok f_zero
  /\ energy_expval (fun _ _ _ _ => pass) circuit hamiltonian_op backend
       shots w
     = (w, Ok f_zero)
  /\ energy_expval (fun _ _ _ _ => counting pass) circuit hamiltonian_op
       backend shots (w, 0%nat)
     = ((w, 1%nat), Ok f_zero)
  /\ exists st' d,
       main num_parameters cobyla (fun _ _ _ _ _ => supplied) backend ansatz
         hamiltonian_op initial shots maxiter tol report_every w
       = (st', Ok d)
       /\ d !! "energy" = Some (VFloat f_zero).
Proof.
  split.
  { rewrite objective_function_outcome. done. }
  split; [reflexivity |]. split; [reflexivity |].
  destruct (main_outcome (fun _ _ _ _ _ => supplied) backend ansatz
              hamiltonian_op initial shots maxiter tol report_every w)
    as (st1 & ret_x & st2 & min_energy & _ & _ & Hlast & _ & Hmain);
    [done |].
  rewrite objective_function_outcome in Hlast. simpl in Hlast.
  injection Hlast as _ <-.
  eexists _, _. split; [exact Hmain |].
  apply payload_keys.
Qed.

(** C6 (amended). With the regions as supplied the file is refused when it
    is loaded: the suite of the [try] of [energy_expval] holds comments only,
    so no function of the module returns anything.  Once that suite holds a
    statement that does nothing, and the region of [objective_function] is
    left as supplied, [energy] is never reassigned: the objective function
    returns 0.0, [energy_expval] returns 0.0 on its first attempt, and the
    'energy' entry of the dictionary [main] returns is 0.0, whatever the
    ansatz, the Hamiltonian, the backend and the optimizer. *)
Theorem supplied_file_refused_pass_gives_zero
    (objective_edit :
       edit (Backend -> QuantumCircuit -> PauliSumOp -> Z -> list F
             -> region F World))
    (backend : Backend) (ansatz circuit : QuantumCircuit)
    (hamiltonian_op : PauliSumOp)
    (initial : option (list F)) (shots maxiter : Z) (tol : option F)
    (report_every : Z) (x : list F) st w :
  (forall m, load num_parameters cobyla CommentsOnly objective_edit <> Ok m)
  /\ exists m,
       load num_parameters cobyla (Pasted (fun _ _ _ _ => pass)) CommentsOnly
       = Ok m
       /\ m_energy_expval m circuit hamiltonian_op backend shots w
          = (w, Ok f_zero)
       /\ energy_expval (fun _ _ _ _ => counting pass) circuit hamiltonian_op
            backend shots (w, 0%nat)
          = ((w, 1%nat), Ok f_zero)
       /\ snd (objective_function (fun _ => supplied) report_every x st)
          = Ok f_zero
       /\ exists st' d,
            m_main m backend ansatz hamiltonian_op initial shots maxiter tol
              report_every w
            = (st', Ok d)
            /\ d !! "energy" = Some (VFloat f_zero).
Proof.
  split; [done |].
  destruct (unassigned_energy_is_zero backend ansatz circuit hamiltonian_op
              initial shots maxiter tol report_every x st w)
    as (Hobj & Hexp & Hcount & Hmain).
  eexists. split; [reflexivity |]. cbn [m_energy_expval m_main].
  split; [exact Hexp |]. split; [exact Hcount |]. split; [exact Hobj |].
  exact Hmain.
Qed.

(** C7. When the evaluation cannot raise: after [minimize] has returned
    [ret_x], having evaluated the objective some number of times, [main]
    calls the objective function once more, at [ret_x]; 'num_calls' is the
    number of evaluations made during the minimization plus one, and 'energy'
    is the value of that last call. *)
Theorem main_reevaluates_at_result
    (body : Backend -> QuantumCircuit -> PauliSumOp -> Z -> list F -> region F World)
    (backend : Backend) (ansatz : QuantumCircuit) (hamiltonian_op : PauliSumOp)
    (initial : option (list F)) (shots maxiter : Z) (tol : option F)
    (report_every : Z) w :
  (forall x, completes (body backend ansatz hamiltonian_op shots x)) ->
  let objective :=
    objective_function (body backend ansatz hamiltonian_op shots) report_every in
  let x0 := default_initial num_parameters ansatz initial in
  let during :=
    evaluations (cobyla (mkCOBYLA maxiter tol) x0) objective (mkState w 0 []) in
  exists st1 ret_x st2 min_energy d,
    minimize cobyla (mkCOBYLA maxiter tol) objective x0 (mkState w 0 [])
    = (st1, Ok ret_x)
    /\ num_calls st1 = Z.of_nat during
    /\ objective ret_x st1 = (st2, Ok min_energy)
    /\ main num_parameters cobyla body backend ansatz hamiltonian_op initial
         shots maxiter tol report_every w
       = (st2, Ok d)
    /\ d !! "num_calls" = Some (VInt (Z.of_nat during + 1))
    /\ d !! "energy" = Some (VFloat min_energy).
Proof.
  intros Hbody objective x0 during.
  destruct (main_outcome body backend ansatz hamiltonian_op initial shots
              maxiter tol report_every w Hbody)
    as (st1 & ret_x & st2 & min_energy & Hmin & Hcalls & Hlast & Hcount & Hmain).
  destruct (payload_keys ret_x min_energy (num_calls st2))
    as (_ & _ & Henergy & Hnum).
  exists st1, ret_x, st2, min_energy, (payload ret_x min_energy (num_calls st2)).
  split; [exact Hmin |]. split; [exact Hcalls |]. split; [exact Hlast |].
  split; [exact Hmain |]. split; [| exact Henergy].
  rewrite Hnum, Hcount, Hcalls. done.
Qed.

(** C8. A call of the objective function that returns has raised [num_calls]
    by exactly one; it has published, once, if and only if report_every > 0
    and the new [num_calls] is divisible by [report_every], and what it
    published has exactly the keys 'params', 'energy' and 'num_calls'.  With
    report_every <= 0 nothing is published, by a call or by a whole run of
    [main]. *)
Theorem objective_function_counts_and_reports
    (body : list F -> region F World) (report_every : Z) (x : list F)
    st st' (e : F) :
  objective_function body report_every x st = (st', Ok e) ->
  num_calls st' = num_calls st + 1
  /\ (0 < report_every /\ num_calls st' `mod` report_every = 0 ->
        exists msg : gmap string (value F),
          published st' = published st ++ [msg]
          /\ dom msg = ({[ "params"; "energy"; "num_calls" ]} : gset string)
          /\ msg !! "params" = Some (VParams x)
          /\ msg !! "energy" = Some (VFloat e)
          /\ msg !! "num_calls" = Some (VInt (num_calls st')))
  /\ (~ (0 < report_every /\ num_calls st' `mod` report_every = 0) ->
        published st' = published st)
  /\ (report_every <= 0 -> published st' = published st)
  /\ (report_every <= 0 ->
      forall (edit : Backend -> QuantumCircuit -> PauliSumOp -> Z -> list F
                     -> region F World)
             backend ansatz hamiltonian_op initial shots maxiter tol w,
        published
          (fst (main num_parameters cobyla edit backend ansatz hamiltonian_op
                  initial shots maxiter tol report_every w)) = []).
Proof.
  intros Hcall. rewrite objective_function_outcome in Hcall.
  destruct (body x f_zero (world st)) as [w' [e' [ex |]]]; [done |].
  injection Hcall as <- <-. cbn [num_calls published].
  pose proof (reports_spec report_every (num_calls st + 1)) as Hrep.
  split; [done |]. split; [| split; [| split]].
  - intros Hyes. apply Hrep in Hyes. rewrite Hyes.
    eexists. split; [done |]. apply payload_keys.
  - intros Hno. destruct (reports report_every (num_calls st + 1)); [| done].
    exfalso. apply Hno, Hrep. done.
  - intros Hre. by rewrite reports_never.
  - intros Hre edit backend ansatz hamiltonian_op initial shots maxiter tol w.
    unfold main, minimize.
    set (objective := objective_function _ report_every).
    set (asked := cobyla _ _).
    pose proof (drive_silent (edit backend ansatz hamiltonian_op shots)
                  report_every asked (mkState w 0 []) Hre) as Hdrive.
    fold objective in Hdrive.
    destruct (drive asked objective (mkState w 0 [])) as [st1 [ret_x | ex]];
      simpl in Hdrive; [| done].
    pose proof (objective_function_silent
                  (edit backend ansatz hamiltonian_op shots)
                  report_every ret_x st1 Hre) as Hlast.
    fold objective in Hlast.
    destruct (objective ret_x st1) as [st2 [min_energy | ex]];
      simpl in *; congruence.
Qed.

End Facts.
(** ** Runs on binary64 floats *)

Import Scenario.

(** C6 as stated fails: the file as supplied is refused, so there is no
    [energy_expval] to return 0.0. *)
Lemma supplied_file_does_not_load :
  load (F := float) (World := unit) (PauliSumOp := unit) (Backend := unit)
    width one_probe CommentsOnly CommentsOnly
  = Raise (OtherError
      "IndentationError: expected an indented block after 'try' statement")
  /\ ~ (exists m,
          load (F := float) (World := unit) (PauliSumOp := unit)
            (Backend := unit) width one_probe CommentsOnly CommentsOnly
          = Ok m
          /\ m_energy_expval m 2%nat tt tt 2000 tt = (tt, Ok 0%float)).
Proof.
  split; [reflexivity |]. intros (m & Hload & _). discriminate Hload.
Qed.

Example energy_expval_third_attempt :
  energy_expval (flaky 2) tt tt tt 2000 0%nat = (3%nat, Ok 1%float).
Proof. reflexivity. Qed.

Example energy_expval_gives_up :
  energy_expval (flaky 5) tt tt tt 2000 0%nat = (5%nat, Raise JobError).
Proof. reflexivity. Qed.

Example energy_expval_sixth_never_tried :
  energy_expval (flaky 7) tt tt tt 2000 0%nat = (5%nat, Raise JobError).
Proof. reflexivity. Qed.

Lemma main_returns_result_witness :
  (forall x, completes (drifting tt 2%nat tt 2000 x))
  /\ exists st d,
       main width one_probe drifting tt 2%nat tt None 2000 100 None 10 0%nat
       = (st, Ok d)
       /\ dom d = ({[ "params"; "energy"; "num_calls" ]} : gset string)
       /\ d !! "params" = Some (VParams [f_centi; f_centi])
       /\ num_calls st = 2.
Proof.
  assert (Hbody : forall x, completes (drifting tt 2%nat tt 2000 x))
    by (intros x e w; reflexivity).
  split; [exact Hbody |].
  destruct (main_returns_result width one_probe drifting tt 2%nat tt None
              2000 100 None 10 0%nat Hbody)
    as (st1 & ret_x & st2 & min_energy & d
        & Hmin & _ & Hmain & Hdom & Hparams & _ & _ & Hcalls).
  exists st2, d. split; [exact Hmain |]. split; [exact Hdom |].
  injection Hmin as _ <-. split; [exact Hparams | exact Hcalls].
Defined.

Lemma main_reevaluates_at_result_witness :
  (forall x, completes (drifting tt 2%nat tt 2000 x))
  /\ exists st d,
       main width one_probe drifting tt 2%nat tt None 2000 100 None 10 0%nat
       = (st, Ok d)
       /\ d !! "num_calls" = Some (VInt 2)
       /\ d !! "energy" = Some (VFloat 2%float).
Proof.
  assert (Hbody : forall x, completes (drifting tt 2%nat tt 2000 x))
    by (intros x e w; reflexivity).
  split; [exact Hbody |].
  destruct (main_reevaluates_at_result width one_probe drifting tt 2%nat tt
              None 2000 100 None 10 0%nat Hbody)
    as (st1 & ret_x & st2 & min_energy & d
        & Hmin & _ & Hlast & Hmain & Hnum & Henergy).
  exists st2, d. split; [exact Hmain |]. split; [exact Hnum |].
  injection Hmin as <- <-. injection Hlast as _ <-. exact Henergy.
Defined.

(** The value [main] reports need not be the least one the optimizer saw:
    here the optimizer saw 1.0 and the final call gives 2.0. *)
Example final_energy_not_least_observed :
  observed (one_probe (mkCOBYLA 100 None) [f_centi; f_centi])
    (objective_function (drifting tt 2%nat tt 2000) 10) (mkState 0%nat 0 [])
  = [1%float]
  /\ snd (objective_function (drifting tt 2%nat tt 2000) 10 [f_centi; f_centi]
            (mkState 1%nat 1 []))
     = Ok 2%float
  /\ PrimFloat.ltb 1 2 = true.
Proof. repeat split. Qed.

Lemma objective_function_counts_and_reports_witness :
  let st := mkState tt 1 [] in
  let st' :=
    mkState tt 2
      [ {[ "params" := VParams [1%float]; "energy" := VFloat 0%float;
           "num_calls" := VInt 2 ]} ] in
  objective_function (fun _ => supplied) 2 [1%float] st = (st', Ok 0%float)
  /\ num_calls st' = num_calls st + 1
  /\ (0 < 2 /\ num_calls st' `mod` 2 = 0 ->
      exists msg : gmap string (value float),
        published st' = published st ++ [msg]
        /\ dom msg = ({[ "params"; "energy"; "num_calls" ]} : gset string)
        /\ msg !! "params" = Some (VParams [1%float])
        /\ msg !! "energy" = Some (VFloat 0%float)
        /\ msg !! "num_calls" = Some (VInt (num_calls st'))).
Proof.
  intros st st'.
  assert (Hrun : objective_function (fun _ => supplied) 2 [1%float] st
                 = (st', Ok 0%float)) by reflexivity.
  split; [exact Hrun |].
  destruct (objective_function_counts_and_reports (QuantumCircuit := nat)
              (PauliSumOp := unit) (Backend := unit) width one_probe
              (fun _ => supplied) 2 [1%float] st st' 0%float Hrun)
    as (Hcount & Hyes & _).
  split; [exact Hcount | exact Hyes].
Defined.

End RuntimeFacts.

(** * Further properties of [trotter_twopi_heisenberg] *)

Module HeisenbergShape.
Import Heisenberg Shape HeisenbergFacts.

Section Facts.
Context {F : Type} {PF : PyFloat F}.
Implicit Types (c : circuit F) (i : instruction F) (n j : nat) (g phase : F).

Lemma tally_app (kind : instruction F -> bool) (l1 l2 : list (instruction F)) :
  tally kind (l1 ++ l2) = (tally kind l1 + tally kind l2)%nat.
Proof. induction l1 as [| i l1 IH]; simpl; [done |]. rewrite IH. lia. Qed.

Lemma tally_flat_map {A} (kind : instruction F -> bool)
    (f : A -> list (instruction F)) (k : nat) (xs : list A) :
  (forall x, tally kind (f x) = k) ->
  tally kind (flat_map f xs) = (length xs * k)%nat.
Proof.
  intros Hf. induction xs as [| x xs IH]; [done |].
  simpl. rewrite tally_app, Hf, IH. lia.
Qed.

Lemma tally_concat_replicate (kind : instruction F -> bool) (k : nat)
    (l : list (instruction F)) :
  tally kind (concat (replicate k l)) = (k * tally kind l)%nat.
Proof.
  induction k as [| k IH]; [done |].
  simpl. rewrite tally_app, IH. lia.
Qed.

Lemma pair_gates_tally n g phase j :
  tally is_cx (pair_gates n g phase j) = 6%nat
  /\ tally is_h (pair_gates n g phase j) = 8%nat
  /\ tally is_p (pair_gates n g phase j) = 4%nat
  /\ tally is_rz (pair_gates n g phase j)
     = (3 + (if f_eqb g f_zero then 0 else 1))%nat.
Proof.
  unfold pair_gates, ZZ_block, XX_block, YY_block, field_block.
  by destruct (f_eqb g f_zero).
Qed.

Lemma step_gates_tally_of (kind : instruction F -> bool) (k : nat) n g phase :
  (forall j, tally kind (pair_gates n g phase j) = k) ->
  tally kind (step_gates n g phase) = (n * k)%nat.
Proof.
  intros Hpair. unfold step_gates.
  rewrite (tally_flat_map kind (pair_gates n g phase) k (seq 0 n) Hpair).
  by rewrite length_seq.
Qed.

Lemma step_gates_tally n g phase :
  tally is_cx (step_gates n g phase) = (n * 6)%nat
  /\ tally is_h (step_gates n g phase) = (n * 8)%nat
  /\ tally is_p (step_gates n g phase) = (n * 4)%nat
  /\ tally is_rz (step_gates n g phase)
     = (n * (3 + (if f_eqb g f_zero then 0 else 1)))%nat.
Proof.
  repeat split; apply step_gates_tally_of; intros j;
    apply (pair_gates_tally n g phase j).
Qed.

Lemma pair_gates_within n g phase j :
  (2 <= n)%nat -> (j < n)%nat ->
  Forall (acts_within n) (pair_gates n g phase j).
Proof.
  intros Hn Hj.
  pose proof (neighbour_lt n j ltac:(lia)) as Hk.
  pose proof (neighbour_ne n j Hn Hj) as Hjk.
  unfold pair_gates, ZZ_block, XX_block, YY_block, field_block.
  destruct (f_eqb g f_zero); simpl;
    repeat (apply Forall_cons; split; [simpl; by auto |]);
    apply Forall_nil_2.
Qed.

Lemma step_gates_within n g phase :
  n <> 1%nat -> Forall (acts_within n) (step_gates n g phase).
Proof.
  intros Hn. destruct n as [| n]; [by apply Forall_nil_2 |].
  unfold step_gates. apply Forall_flat_map, Forall_forall.
  intros j Hj. apply list_elem_of_In, in_seq in Hj.
  apply pair_gates_within; lia.
Qed.

(** The function in closed form. *)
Lemma trotter_closed_form n (energy_norm g : F) (num_steps : Z) :
  trotter_twopi_heisenberg n energy_norm g num_steps
  = match f_of_int num_steps with
    | None => Raise OverflowError
    | Some d =>
        if f_eqb d f_zero then Raise ZeroDivisionError
        else if decide (n = 1%nat)
        then Raise (CircuitError "duplicate qubit arguments")
        else Ok (mkCircuit "U" n
                   (replicate (Z.to_nat num_steps)
                      (to_gate (mkCircuit "ΔU" n
                         (step_gates n g (phase_of energy_norm d))))))
    end.
Proof.
  unfold trotter_twopi_heisenberg. rewrite single_step_outcome.
  destruct (f_of_int num_steps) as [d |]; [| done].
  destruct (f_eqb d f_zero); [done |].
  destruct (decide (n = 1%nat)); [done |].
  unfold set_name.
  destruct (repeat_data num_steps
              (mkCircuit "ΔU" n (step_gates n g (phase_of energy_norm d))))
    as [-> ->]. done.
Qed.

(** X1. The errors of the function, in the order they are met: an int too
    large for a float gives [OverflowError]; a zero [num_steps] gives
    [ZeroDivisionError], whatever the register, also for one spin; only then
    does a register of one spin give the duplicate-qubit error.  No other
    exception is raised; in particular no qubit index is ever out of range. *)
Theorem trotter_errors n (energy_norm g : F) (num_steps : Z) :
  (f_of_int num_steps = None ->
     trotter_twopi_heisenberg n energy_norm g num_steps = Raise OverflowError)
  /\ (forall d, f_of_int num_steps = Some d -> f_eqb d f_zero = true ->
        trotter_twopi_heisenberg n energy_norm g num_steps
        = Raise ZeroDivisionError)
  /\ (forall e,
        trotter_twopi_heisenberg n energy_norm g num_steps = Raise e ->
        e = OverflowError \/ e = ZeroDivisionError
        \/ (e = CircuitError "duplicate qubit arguments" /\ n = 1%nat))
  /\ (forall e,
        trotter_twopi_heisenberg n energy_norm g num_steps = Raise e ->
        e = CircuitError "duplicate qubit arguments" ->
        exists d, f_of_int num_steps = Some d /\ f_eqb d f_zero = false).
Proof.
  rewrite trotter_closed_form. split; [by intros -> |].
  split; [by intros d -> -> |]. split.
  - intros e.
    destruct (f_of_int num_steps) as [d |]; [| intros [= <-]; by left].
    destruct (f_eqb d f_zero); [intros [= <-]; right; by left |].
    destruct (decide (n = 1%nat)); [| done].
    intros [= <-]. right. right. done.
  - intros e.
    destruct (f_of_int num_steps) as [d |]; [| by intros [= <-] ?].
    destruct (f_eqb d f_zero) eqn:Hnz; [by intros [= <-] ? |].
    intros _ _. by exists d.
Qed.

(** X2. Every instruction of a returned circuit fits the register: the
    circuit has [n_spins] qubits; each of its instructions is a repeated step
    applied to all qubits 0 .. n_spins-1, in order; and in the gate sequence it
    stands for all qubit indices are below [n_spins] and every cx has a
    control different from its target. *)
Theorem trotter_fits_register n (energy_norm g : F) (num_steps : Z) c :
  trotter_twopi_heisenberg n energy_norm g num_steps = Ok c ->
  num_qubits c = n
  /\ Forall (spans n) (data c)
  /\ Forall (acts_within n) (data c)
  /\ Forall (acts_within n) (gate_sequence c).
Proof.
  rewrite trotter_closed_form.
  destruct (f_of_int num_steps) as [d |]; [| done].
  destruct (f_eqb d f_zero); [done |].
  destruct (decide (n = 1%nat)) as [| Hn]; [done |].
  intros [= <-]. split; [done |]. split; [| split].
  - simpl. by apply Forall_replicate.
  - simpl. apply Forall_replicate. simpl. split.
    + apply seq_below.
    + apply NoDup_ListNoDup, seq_NoDup.
  - unfold gate_sequence. simpl.
    rewrite expand_replicate by apply step_gates_simple. simpl.
    apply Forall_concat, Forall_replicate. by apply step_gates_within.
Qed.

(** X3. The gates of a returned circuit, by kind: per step and per spin
    6 cx, 8 h, 4 p and 3 rz, and one more rz when g != 0. *)
Theorem trotter_gate_census n (energy_norm g : F) (num_steps : Z) c :
  trotter_twopi_heisenberg n energy_norm g num_steps = Ok c ->
  let steps := Z.to_nat num_steps in
  tally is_cx (gate_sequence c) = (steps * (n * 6))%nat
  /\ tally is_h (gate_sequence c) = (steps * (n * 8))%nat
  /\ tally is_p (gate_sequence c) = (steps * (n * 4))%nat
  /\ tally is_rz (gate_sequence c)
     = (steps * (n * (3 + (if negb (f_eqb g f_zero) then 1 else 0))))%nat.
Proof.
  rewrite trotter_closed_form.
  destruct (f_of_int num_steps) as [d |]; [| done].
  destruct (f_eqb d f_zero); [done |].
  destruct (decide (n = 1%nat)) as [| Hn]; [done |].
  intros [= <-] steps. unfold gate_sequence. simpl.
  rewrite expand_replicate by apply step_gates_simple. simpl.
  rewrite !tally_concat_replicate.
  destruct (step_gates_tally n g (phase_of energy_norm d))
    as (-> & -> & -> & ->).
  by destruct (f_eqb g f_zero).
Qed.

(** X10. A negative [num_steps] is not refused: the step is built, with a
    negative step size, and repeated no time at all, so the circuit returned
    has the name 'U' and no instruction. *)
Theorem negative_steps_give_empty_circuit n (energy_norm g : F)
    (num_steps : Z) (d : F) :
  num_steps < 0 -> n <> 1%nat ->
  f_of_int num_steps = Some d -> f_eqb d f_zero = false ->
  trotter_twopi_heisenberg n energy_norm g num_steps = Ok (mkCircuit "U" n []).
Proof.
  intros Hneg Hn Hd Hnz. rewrite trotter_closed_form, Hd, Hnz.
  destruct (decide (n = 1%nat)); [done |].
  by replace (Z.to_nat num_steps) with 0%nat by lia.
Qed.

Lemma pair_gates_angles n g phase j :
  Forall (angle_among
            [f_mul (f_neg f_two) phase; f_mul (f_mul (f_neg f_two) g) phase]
            [f_div (f_neg f_pi) f_two; f_div f_pi f_two])
         (pair_gates n g phase j).
Proof.
  unfold pair_gates, ZZ_block, XX_block, YY_block, field_block.
  destruct (f_eqb g f_zero); simpl;
    repeat (apply Forall_cons; split; [simpl; by auto |]);
    apply Forall_nil_2.
Qed.

(** X11. The rotations of a step use four angles only: every rz turns by
    -2*phase (the three couplings share it) or by -2*g*phase (the field), and
    every p by -pi/2 or pi/2, where phase = -energy_norm * (2*pi/num_steps). *)
Theorem step_rotation_angles n (energy_norm g : F) (num_steps : Z) (d : F) step :
  f_of_int num_steps = Some d ->
  single_step n energy_norm g num_steps = Ok step ->
  let phase := f_mul (f_neg energy_norm) (f_div (f_mul f_two f_pi) d) in
  Forall (angle_among
            [f_mul (f_neg f_two) phase; f_mul (f_mul (f_neg f_two) g) phase]
            [f_div (f_neg f_pi) f_two; f_div f_pi f_two])
         (data step).
Proof.
  intros Hd. rewrite single_step_outcome, Hd.
  destruct (f_eqb d f_zero); [done |].
  destruct (decide (n = 1%nat)); [done |].
  intros [= <-] phase. simpl. unfold step_gates.
  apply Forall_flat_map, Forall_forall. intros j _.
  apply pair_gates_angles.
Qed.

(** X4. The chain is closed: in the step circuit every spin j is coupled
    by a cx to its successor j+1, and the last spin to spin 0. *)
Theorem step_couples_ring n (energy_norm g : F) (num_steps : Z) step :
  (2 <= n)%nat ->
  single_step n energy_norm g num_steps = Ok step ->
  (forall j, (j + 1 < n)%nat -> In (CX j (j + 1)) (data step))
  /\ In (CX (n - 1) 0) (data step).
Proof.
  intros Hn. rewrite single_step_outcome.
  destruct (f_of_int num_steps) as [d |]; [| done].
  destruct (f_eqb d f_zero); [done |].
  destruct (decide (n = 1%nat)); [lia |].
  intros [= <-]. simpl.
  assert (Hpair : forall j, (j < n)%nat ->
            In (CX j ((j + 1) mod n)) (step_gates n g (phase_of energy_norm d))).
  { intros j Hj. unfold step_gates. apply in_flat_map. exists j.
    split; [apply in_seq; lia |].
    unfold pair_gates, ZZ_block. simpl. by left. }
  split.
  - intros j Hj. specialize (Hpair j ltac:(lia)).
    by rewrite Nat.mod_small in Hpair.
  - specialize (Hpair (n - 1)%nat ltac:(lia)).
    replace (n - 1 + 1)%nat with n in Hpair by lia.
    by rewrite Nat.Div0.mod_same in Hpair.
Qed.

End Facts.

Lemma trotter_fits_register_witness :
  exists c,
    trotter_twopi_heisenberg 3 1%float 0.5%float 2 = Ok c
    /\ num_qubits c = 3%nat
    /\ Forall (spans 3) (data c)
    /\ Forall (acts_within 3) (gate_sequence c).
Proof.
  destruct (trotter_outcome (F := float) 3 1%float 0.5%float 2 2%float
              ltac:(lia) eq_refl eq_refl) as [_ Hrun].
  eexists. split; [exact Hrun |].
  destruct (trotter_fits_register (F := float) 3 1%float 0.5%float 2 _ Hrun)
    as (Hq & Hspan & _ & Hseq).
  split; [exact Hq |]. split; [exact Hspan | exact Hseq].
Defined.

Lemma trotter_gate_census_witness :
  exists c,
    trotter_twopi_heisenberg 3 1%float 0.5%float 2 = Ok c
    /\ tally is_cx (gate_sequence c) = 36%nat
    /\ tally is_rz (gate_sequence c) = 24%nat.
Proof.
  destruct (trotter_outcome (F := float) 3 1%float 0.5%float 2 2%float
              ltac:(lia) eq_refl eq_refl) as [_ Hrun].
  eexists. split; [exact Hrun |].
  destruct (trotter_gate_census (F := float) 3 1%float 0.5%float 2 _ Hrun)
    as (Hcx & _ & _ & Hrz).
  split; [exact Hcx | exact Hrz].
Defined.

Lemma step_couples_ring_witness :
  (2 <= 3)%nat
  /\ exists step,
       single_step 3 1%float 0%float 4 = Ok step
       /\ In (CX 1 2) (data step) /\ In (CX 2 0) (data step).
Proof.
  split; [lia |].
  destruct (trotter_outcome (F := float) 3 1%float 0%float 4 4%float
              ltac:(lia) eq_refl eq_refl) as [Hstep _].
  eexists. split; [exact Hstep |].
  destruct (step_couples_ring (F := float) 3 1%float 0%float 4 _
              ltac:(lia) Hstep) as [Hnext Hlast].
  split; [exact (Hnext 1%nat ltac:(lia)) | exact Hlast].
Defined.

Lemma negative_steps_give_empty_circuit_witness :
  -3 < 0 /\ 2%nat <> 1%nat
  /\ prim_of_int (-3) = Some (-3)%float /\ PrimFloat.eqb (-3) 0 = false
  /\ trotter_twopi_heisenberg 2 1%float 0%float (-3) = Ok (mkCircuit "U" 2 []).
Proof.
  split; [lia |]. split; [lia |]. split; [reflexivity |].
  split; [reflexivity |].
  exact (negative_steps_give_empty_circuit (F := float) 2 1%float 0%float
           (-3) (-3)%float ltac:(lia) ltac:(lia) eq_refl eq_refl).
Defined.

Lemma step_rotation_angles_witness :
  prim_of_int 2 = Some 2%float
  /\ exists step,
       single_step 2 1%float 0.5%float 2 = Ok step
       /\ Forall (angle_among
                    [0x1.921fb54442d18p+2%float; 0x1.921fb54442d18p+1%float]
                    [(-0x1.921fb54442d18p+0)%float; 0x1.921fb54442d18p+0%float])
                 (data step).
Proof.
  split; [reflexivity |].
  destruct (trotter_outcome (F := float) 2 1%float 0.5%float 2 2%float
              ltac:(lia) eq_refl eq_refl) as [Hstep _].
  eexists. split; [exact Hstep |].
  exact (step_rotation_angles (F := float) 2 1%float 0.5%float 2 2%float _
           eq_refl Hstep).
Defined.

Example overflowing_steps_raise :
  trotter_twopi_heisenberg 2 1%float 0%float (2 ^ 1024) = Raise OverflowError.
Proof. vm_compute. reflexivity. Qed.

Example zero_steps_reported_first :
  trotter_twopi_heisenberg 1 1%float 0%float 0 = Raise ZeroDivisionError.
Proof. vm_compute. reflexivity. Qed.

End HeisenbergShape.

(** * Further properties of [energy_expval] and [main] *)

Module RuntimeRuns.
Import RuntimeVQE Messenger Reports RuntimeFacts.

Section Facts.
Context {F : Type} {PF : PyFloat F} {World : Type}.
Context {QuantumCircuit PauliSumOp Backend : Type}.
Context (num_parameters : QuantumCircuit -> nat).
Context (cobyla : COBYLA F -> list F -> strategy F).
Implicit Types (w : World) (st : state F World).

(** ** The retry loop, forwards *)

(** X5. If the first [k] attempts (k < 5) raise [JobError] and attempt [k]
    does not, [energy_expval] ends with attempt [k]: it returns its energy,
    or raises what it raised, in the world left by these k+1 attempts. *)
Theorem energy_expval_after_failures
    (body : QuantumCircuit -> PauliSumOp -> Backend -> Z -> region F World)
    (circuit : QuantumCircuit) (hamiltonian_op : PauliSumOp)
    (backend : Backend) (shots : Z) w (k : nat) :
  let tried := body circuit hamiltonian_op backend shots in
  (k < 5)%nat ->
  (forall i : nat, (i < k)%nat -> snd (attempt tried w i) = Some JobError) ->
  snd (attempt tried w k) <> Some JobError ->
  energy_expval body circuit hamiltonian_op backend shots w
  = (world_at tried (S k) w,
     match attempt tried w k with
     | (e, None) => Ok e
     | (_, Some ex) => Raise ex
     end).
Proof.
  intros tried Hk Hfail Hlast.
  destruct (retry_loop_outcome tried 5 0 None w eq_refl ltac:(lia))
    as (k' & Hk' & Hbefore & Hworld & Hend).
  change (retry_loop tried (map Z.of_nat (seq 0 5)) None w)
    with (energy_expval body circuit hamiltonian_op backend shots w) in *.
  assert (k' = k) as ->.
  { destruct (lt_eq_lt_dec k' k) as [[Hlt | Heq] | Hgt]; [| done |].
    - specialize (Hfail k' Hlt).
      destruct (attempt tried w k') as [e [ex |]]; simpl in Hfail; [| done].
      injection Hfail as ->. destruct Hend as [_ Hfour].
      specialize (Hfour eq_refl). lia.
    - specialize (Hbefore k Hgt). done. }
  rewrite (surjective_pairing (energy_expval _ _ _ _ _ _)), Hworld.
  f_equal. by destruct (attempt tried w k) as [e [ex |]]; [destruct Hend |].
Qed.

(** ** Counting the attempts *)

Lemma retry_loop_counting (body : region F World) (itrys : list Z)
    (e0 : option F) w (n0 : nat) :
  exists n : nat,
    (n <= length itrys)%nat
    /\ (itrys <> [] -> (1 <= n)%nat)
    /\ retry_loop (counting body) itrys e0 (w, n0)
       = ((fst (retry_loop body itrys e0 w), (n0 + n)%nat),
          snd (retry_loop body itrys e0 w)).
Proof.
  revert e0 w n0. induction itrys as [| itry rest IH]; intros e0 w n0.
  - exists 0%nat. split; [done |]. split; [done |].
    simpl. rewrite Nat.add_0_r. by destruct e0.
  - cbn [retry_loop]. unfold counting at 1. cbn [fst snd].
    destruct (body f_zero w) as [w1 [e1 [ex |]]].
    + destruct (decide (ex = JobError)) as [-> | Hex].
      * destruct (itry =? NUM_RETRIES - 1).
        -- exists 1%nat. simpl. split; [lia |]. split; [lia |].
           by rewrite Nat.add_1_r.
        -- destruct (IH (Some e1) w1 (S n0)) as (n & Hn & _ & ->).
           exists (S n). simpl. split; [lia |]. split; [lia |].
           by rewrite Nat.add_succ_r.
      * exists 1%nat. simpl. split; [lia |]. split; [lia |].
        rewrite Nat.add_1_r. by destruct ex.
    + exists 1%nat. simpl. split; [lia |]. split; [lia |].
      by rewrite Nat.add_1_r.
Qed.

(** X6. Whatever the body does, [energy_expval] enters it at least once
    and at most five times; counting the entries changes neither the result
    nor the world. *)
Theorem energy_expval_attempts_bounded
    (body : QuantumCircuit -> PauliSumOp -> Backend -> Z -> region F World)
    (circuit : QuantumCircuit) (hamiltonian_op : PauliSumOp)
    (backend : Backend) (shots : Z) w :
  let run := energy_expval body circuit hamiltonian_op backend shots w in
  exists n : nat,
    (1 <= n <= 5)%nat
    /\ energy_expval (fun c o b s => counting (body c o b s))
         circuit hamiltonian_op backend shots (w, 0%nat)
       = ((fst run, n), snd run).
Proof.
  intros run. unfold energy_expval.
  destruct (retry_loop_counting (body circuit hamiltonian_op backend shots)
              (range NUM_RETRIES) None w 0)
    as (n & Hle & Hge & Hrun).
  exists n. split; [| exact Hrun].
  split; [by apply Hge | exact Hle].
Qed.

(** ** Reporting does not steer the run *)

Lemma objective_function_same_run (body : list F -> region F World)
    (re re' : Z) (x : list F) st st' :
  world st = world st' -> num_calls st = num_calls st' ->
  snd (objective_function body re x st)
  = snd (objective_function body re' x st')
  /\ world (fst (objective_function body re x st))
     = world (fst (objective_function body re' x st'))
  /\ num_calls (fst (objective_function body re x st))
     = num_calls (fst (objective_function body re' x st')).
Proof.
  intros Hw Hn. rewrite !objective_function_outcome, <- Hw, <- Hn.
  by destruct (body x f_zero (world st)) as [w' [e [ex |]]].
Qed.

Lemma drive_same_run (body : list F -> region F World) (re re' : Z)
    (s : strategy F) st st' :
  world st = world st' -> num_calls st = num_calls st' ->
  snd (drive s (objective_function body re) st)
  = snd (drive s (objective_function body re') st')
  /\ world (fst (drive s (objective_function body re) st))
     = world (fst (drive s (objective_function body re') st'))
  /\ num_calls (fst (drive s (objective_function body re) st))
     = num_calls (fst (drive s (objective_function body re') st')).
Proof.
  revert st st'. induction s as [x | x next IH]; intros st st' Hw Hn; [done |].
  simpl.
  destruct (objective_function_same_run body re re' x st st' Hw Hn)
    as (Hres & Hw1 & Hn1).
  destruct (objective_function body re x st) as [st1 r1].
  destruct (objective_function body re' x st') as [st1' r1'].
  simpl in *. subst r1'. destruct r1 as [e | ex]; [| done].
  by apply IH.
Qed.

(** Two runs of [main] that differ in [report_every] alone end with the same
    result, the same world and the same [num_calls]. *)
Lemma main_same_run
    (body : Backend -> QuantumCircuit -> PauliSumOp -> Z -> list F -> region F World)
    (backend : Backend) (ansatz : QuantumCircuit) (hamiltonian_op : PauliSumOp)
    (initial : option (list F)) (shots maxiter : Z) (tol : option F)
    (report_every report_every' : Z) w :
  let run := main num_parameters cobyla body backend ansatz hamiltonian_op
               initial shots maxiter tol report_every w in
  let run' := main num_parameters cobyla body backend ansatz hamiltonian_op
                initial shots maxiter tol report_every' w in
  snd run = snd run'
  /\ world (fst run) = world (fst run')
  /\ num_calls (fst run) = num_calls (fst run').
Proof.
  unfold main, minimize.
  set (edit := body backend ansatz hamiltonian_op shots).
  set (asked := cobyla _ _).
  destruct (drive_same_run edit report_every report_every' asked
              (mkState w 0 []) (mkState w 0 []) eq_refl eq_refl)
    as (Hres & Hw1 & Hn1).
  destruct (drive asked (objective_function edit report_every) _)
    as [st1 r1].
  destruct (drive asked (objective_function edit report_every') _)
    as [st1' r1'].
  simpl in Hres, Hw1, Hn1. subst r1'. destruct r1 as [ret_x | ex]; [| done].
  destruct (objective_function_same_run edit report_every report_every'
              ret_x st1 st1' Hw1 Hn1) as (Hres2 & Hw2 & Hn2).
  destruct (objective_function edit report_every ret_x st1) as [st2 r2].
  destruct (objective_function edit report_every' ret_x st1') as [st2' r2'].
  simpl in Hres2, Hw2, Hn2. subst r2'. destruct r2 as [e | ex]; [| done].
  simpl. by rewrite Hn2.
Qed.

(** ** What has been published *)

Lemma due_next_yes (re n : Z) :
  0 < re -> 0 <= n -> (n + 1) `mod` re = 0 ->
  due re (n + 1) = due re n ++ [n + 1].
Proof.
  intros Hre Hn Hmod. unfold due.
  pose proof (Z.div_mod (n + 1) re ltac:(lia)) as H1.
  pose proof (Z.div_mod n re ltac:(lia)) as H0.
  pose proof (Z.mod_pos_bound n re Hre) as Hr0.
  pose proof (Z.div_pos n re Hn Hre) as Hq0.
  assert (Hq : (n + 1) / re = n / re + 1) by nia.
  rewrite Hq, Z2Nat.inj_add, Nat.add_1_r, seq_S, map_app by lia.
  simpl. do 2 f_equal. rewrite Z2Nat.id by lia. nia.
Qed.

Lemma due_next_no (re n : Z) :
  0 < re -> 0 <= n -> (n + 1) `mod` re <> 0 ->
  due re (n + 1) = due re n.
Proof.
  intros Hre Hn Hmod. unfold due.
  pose proof (Z.div_mod (n + 1) re ltac:(lia)) as H1.
  pose proof (Z.div_mod n re ltac:(lia)) as H0.
  pose proof (Z.mod_pos_bound n re Hre) as Hr0.
  pose proof (Z.mod_pos_bound (n + 1) re Hre) as Hr1.
  assert (Hq : (n + 1) / re = n / re) by nia.
  by rewrite Hq.
Qed.

Lemma objective_function_on_schedule (body : list F -> region F World)
    (re : Z) (x : list F) st :
  0 < re -> on_schedule re st ->
  on_schedule re (fst (objective_function body re x st)).
Proof.
  intros Hre [Hn Hpub]. rewrite objective_function_outcome.
  destruct (body x f_zero (world st)) as [w' [e [ex |]]]; [done |].
  unfold on_schedule. cbn [fst num_calls published].
  split; [lia |].
  destruct (reports re (num_calls st + 1)) eqn:Hrep.
  - apply reports_spec in Hrep as [_ Hmod].
    rewrite due_next_yes, !map_app, Hpub by done.
    by f_equal.
  - rewrite due_next_no; [done | done | done |].
    intros Hmod. assert (reports re (num_calls st + 1) = true) as Hyes
      by (by apply reports_spec). congruence.
Qed.

Lemma drive_on_schedule (body : list F -> region F World) (re : Z)
    (s : strategy F) st :
  0 < re -> on_schedule re st ->
  on_schedule re (fst (drive s (objective_function body re) st)).
Proof.
  intros Hre. revert st. induction s as [x | x next IH]; intros st Hst; [done |].
  simpl.
  pose proof (objective_function_on_schedule body re x st Hre Hst) as Hcall.
  destruct (objective_function body re x st) as [st1 [e | ex]]; [| done].
  by apply IH.
Qed.

(** X8. With report_every > 0, whenever [main] ends (by returning or by
    raising) the published messages are exactly the reports that were due:
    the i-th one carries num_calls = i * report_every, for i = 1 up to
    num_calls div report_every.  The call made after the minimization
    reports like any other. *)
Theorem main_reports_on_schedule
    (body : Backend -> QuantumCircuit -> PauliSumOp -> Z -> list F -> region F World)
    (backend : Backend) (ansatz : QuantumCircuit) (hamiltonian_op : PauliSumOp)
    (initial : option (list F)) (shots maxiter : Z) (tol : option F)
    (report_every : Z) w :
  0 < report_every ->
  let st := fst (main num_parameters cobyla body backend ansatz hamiltonian_op
                   initial shots maxiter tol report_every w) in
  map reported_calls (published st)
  = map Some (due report_every (num_calls st))
  /\ length (published st) = Z.to_nat (num_calls st / report_every)
  /\ forall (i : nat) msg, published st !! i = Some msg ->
       reported_calls msg = Some ((Z.of_nat i + 1) * report_every).
Proof.
  intros Hre st.
  assert (Hst : on_schedule report_every st).
  { subst st. unfold main, minimize.
    set (edit := body backend ansatz hamiltonian_op shots).
    set (asked := cobyla _ _).
    pose proof (drive_on_schedule edit report_every asked (mkState w 0 []) Hre)
      as Hdrive.
    destruct (drive asked (objective_function edit report_every) _)
      as [st1 [ret_x | ex]].
    - pose proof (objective_function_on_schedule edit report_every ret_x st1
                    Hre) as Hlast.
      destruct (objective_function edit report_every ret_x st1)
        as [st2 [e | ex]]; simpl in *; apply Hlast, Hdrive; by split.
    - simpl in *. apply Hdrive. by split. }
  destruct Hst as [Hn Hpub]. split; [exact Hpub |]. split.
  - rewrite <- (length_map reported_calls), Hpub, length_map.
    unfold due. by rewrite length_map, length_seq.
  - intros i msg Hi.
    assert (Hlook : map reported_calls (published st) !! i
                    = Some (reported_calls msg)).
    { by rewrite list_lookup_fmap, Hi. }
    rewrite Hpub, list_lookup_fmap in Hlook. unfold due in Hlook.
    rewrite list_lookup_fmap in Hlook.
    destruct (seq 0 (Z.to_nat (num_calls st / report_every)) !! i)
      as [j |] eqn:Hj; [| done].
    apply lookup_seq in Hj as [-> _]. simpl in Hlook. congruence.
Qed.

(** ** A messenger that may fail *)

Lemma objective_function_via_quiet
    (publish : gmap string (value F) -> World -> World * option exn)
    (body : list F -> region F World) (re : Z) (x : list F) st :
  (forall msg w', publish msg w' = (w', None)) ->
  objective_function_via publish body re x st = objective_function body re x st.
Proof.
  intros Hquiet. unfold objective_function_via, objective_function.
  destruct (body x f_zero (world st)) as [w' [e [ex |]]]; [done |].
  destruct ((0 <? re) && ((num_calls st + 1) `mod` re =? 0)); [| done].
  by rewrite Hquiet.
Qed.

Lemma drive_via_quiet
    (publish : gmap string (value F) -> World -> World * option exn)
    (body : list F -> region F World) (re : Z) (s : strategy F) st :
  (forall msg w', publish msg w' = (w', None)) ->
  drive s (objective_function_via publish body re) st
  = drive s (objective_function body re) st.
Proof.
  intros Hquiet. revert st. induction s as [x | x next IH]; intros st; [done |].
  simpl. rewrite objective_function_via_quiet by done.
  destruct (objective_function body re x st) as [st1 [e | ex]]; [| done].
  apply IH.
Qed.

Lemma main_via_quiet
    (publish : gmap string (value F) -> World -> World * option exn)
    (body : Backend -> QuantumCircuit -> PauliSumOp -> Z -> list F -> region F World)
    (backend : Backend) (ansatz : QuantumCircuit) (hamiltonian_op : PauliSumOp)
    (initial : option (list F)) (shots maxiter : Z) (tol : option F)
    (report_every : Z) w :
  (forall msg w', publish msg w' = (w', None)) ->
  main_via num_parameters cobyla publish body backend ansatz hamiltonian_op
    initial shots maxiter tol report_every w
  = main num_parameters cobyla body backend ansatz hamiltonian_op
      initial shots maxiter tol report_every w.
Proof.
  intros Hquiet. unfold main_via, main, minimize.
  rewrite drive_via_quiet by done.
  destruct (drive _ _ _) as [st1 [ret_x | ex]]; [| done].
  by rewrite objective_function_via_quiet.
Qed.

(** X7. As long as [user_messenger.publish] returns normally and leaves
    the world alone, [report_every] decides what is published and nothing
    else: two runs of [main] that differ in it alone end with the same result
    (the same dictionary or the same exception), the same world and the same
    [num_calls]. *)
Theorem reporting_does_not_steer
    (publish : gmap string (value F) -> World -> World * option exn)
    (body : Backend -> QuantumCircuit -> PauliSumOp -> Z -> list F -> region F World)
    (backend : Backend) (ansatz : QuantumCircuit) (hamiltonian_op : PauliSumOp)
    (initial : option (list F)) (shots maxiter : Z) (tol : option F)
    (report_every report_every' : Z) w :
  (forall msg w', publish msg w' = (w', None)) ->
  let run := main_via num_parameters cobyla publish body backend ansatz
               hamiltonian_op initial shots maxiter tol report_every w in
  let run' := main_via num_parameters cobyla publish body backend ansatz
                hamiltonian_op initial shots maxiter tol report_every' w in
  snd run = snd run'
  /\ world (fst run) = world (fst run')
  /\ num_calls (fst run) = num_calls (fst run').
Proof.
  intros Hquiet run run'. subst run run'.
  rewrite !main_via_quiet by done. apply main_same_run.
Qed.

End Facts.

(** ** Runs on binary64 floats *)

Import Scenario.

Lemma energy_expval_after_failures_witness :
  (2 < 5)%nat
  /\ (forall i : nat, (i < 2)%nat ->
        snd (attempt (flaky 2 tt tt tt 2000) 0%nat i) = Some JobError)
  /\ snd (attempt (flaky 2 tt tt tt 2000) 0%nat 2) <> Some JobError
  /\ energy_expval (flaky 2) tt tt tt 2000 0%nat = (3%nat, Ok 1%float).
Proof.
  assert (Hfail : forall i : nat, (i < 2)%nat ->
            snd (attempt (flaky 2 tt tt tt 2000) 0%nat i) = Some JobError).
  { intros [| [| i]] Hi; [reflexivity | reflexivity | lia]. }
  assert (Hlast : snd (attempt (flaky 2 tt tt tt 2000) 0%nat 2)
                  <> Some JobError) by discriminate.
  split; [lia |]. split; [exact Hfail |]. split; [exact Hlast |].
  exact (energy_expval_after_failures (flaky 2) tt tt tt 2000 0%nat 2
           ltac:(lia) Hfail Hlast).
Defined.

Lemma main_reports_on_schedule_witness :
  0 < 1
  /\ map reported_calls
       (published
          (fst (main width one_probe drifting tt 2%nat tt None 2000 100 None
                  1 0%nat)))
     = [Some 1; Some 2].
Proof.
  split; [lia |].
  destruct (main_reports_on_schedule width one_probe drifting tt 2%nat tt
              None 2000 100 None 1 0%nat ltac:(lia)) as [Hpub _].
  exact Hpub.
Defined.

Lemma reporting_does_not_steer_witness :
  (forall msg w', quiet_publish msg w' = (w', None))
  /\ snd (main_via width one_probe quiet_publish drifting tt 2%nat tt None
            2000 100 None 0 0%nat)
     = snd (main_via width one_probe quiet_publish drifting tt 2%nat tt None
              2000 100 None 1 0%nat).
Proof.
  assert (Hquiet : forall msg w', quiet_publish msg w' = (w', None))
    by (intros msg w'; reflexivity).
  split; [exact Hquiet |].
  destruct (reporting_does_not_steer width one_probe quiet_publish drifting
              tt 2%nat tt None 2000 100 None 0 1 0%nat Hquiet) as [Hres _].
  exact Hres.
Defined.

(** The condition on [publish] is needed: with a messenger that raises, a
    run that reports ends by that exception and a run that does not report
    returns. *)
Example failing_publish_steers :
  snd (main_via width one_probe broken_publish drifting tt 2%nat tt None
         2000 100 None 1 0%nat)
  = Raise (OtherError "publish failed")
  /\ exists d,
       snd (main_via width one_probe broken_publish drifting tt 2%nat tt None
              2000 100 None 0 0%nat)
       = Ok d.
Proof. split; [reflexivity |]. eexists. reflexivity. Qed.

Example three_attempts_counted :
  energy_expval (fun c o b s => counting (flaky 2 c o b s)) tt tt tt 2000
    (0%nat, 0%nat)
  = ((3%nat, 3%nat), Ok 1%float).
Proof. reflexivity. Qed.

End RuntimeRuns.
